(** * Rule expression engine of marble-backend: a shallow embedding

    The development follows the Go packages of the repository:
    - [app]: the data model and its field-path resolver ([DataModel.FieldAt]);
    - [ast]: dynamic values, errors, arguments and the result tree
      ([NodeEvaluation.AllErrors]);
    - [operators]: the legacy boolean operators and their polymorphic JSON
      encoding through the type registry ([unmarshalOperatorBool]);
    - [evaluate]: the [Equal] and [Filter] evaluators.

    Go maps are finite maps ([gmap]), Go slices are lists, a Go result pair
    [(T, error)] is a pair whose second component is an [option], a run-time
    panic is an explicit outcome.  All definitions come first; the facts
    proved about them follow in the second half of the file. *)

From Stdlib Require Import ZArith Floats.
From stdpp Require Import gmap strings list pretty.

#[local] Set Warnings "-register-all,-inexact-float".
Local Open Scope string_scope.
Local Open Scope list_scope.

(** ** Go run-time outcomes *)

(** What a call of a Go function without an error result can do: return a
    value or panic. *)
Inductive outcome (A : Type) : Type :=
| Returns (a : A)
| Panics (reason : string).
Arguments Returns {A} a.
Arguments Panics {A} reason.

(** [m[k]] on a Go map: the stored value, or the zero value of the element
    type when the key is absent (also on a nil map). *)
Definition index_map {V : Type} (zero : V) (m : gmap string V) (k : string) : V :=
  default zero (m !! k).

(** ** Package [app]: data model and field-path resolver *)
Module app.

Inductive DataType : Set := Bool | Int | Float | String.

Definition DataType_String (d : DataType) : string :=
  match d with
  | Bool => "Bool"
  | Int => "Int"
  | Float => "Float"
  | String => "String"
  end.

Record Field : Set := { DataType_ : DataType }.

Record LinkToSingle : Set := {
  LinkedTableName : string;
  ParentFieldName : string;
  ChildFieldName : string
}.

Record Table : Type := {
  Fields : gmap string Field;
  LinksToSingle : gmap string LinkToSingle
}.

Record DataModel : Type := { Tables : gmap string Table }.

(** Zero values, as Go gives them for absent map keys: [iota] starts at
    [Bool], strings are empty, maps are nil. *)
Definition zero_Field : Field := {| DataType_ := Bool |}.
Definition zero_LinkToSingle : LinkToSingle :=
  {| LinkedTableName := ""; ParentFieldName := ""; ChildFieldName := "" |}.
Definition zero_Table : Table := {| Fields := ∅; LinksToSingle := ∅ |}.

(** [func (dm DataModel) FieldAt(rootName string, path []string) Field].
    The three branches of the match are the three shapes of [path]:
    [len(path) == 1] returns [currentRoot.Fields[path[0]]]; otherwise the
    arguments of the recursive call are evaluated, and [path[0]] panics on an
    empty slice while on a longer one the call recurses on [path[1:]]. *)
Fixpoint FieldAt (dm : DataModel) (rootName : string) (path : list string)
  : outcome Field :=
  let currentRoot := index_map zero_Table (Tables dm) rootName in
  match path with
  | [p0] => Returns (index_map zero_Field (Fields currentRoot) p0)
  | [] => Panics "index out of range [0] with length 0"
  | p0 :: rest =>
      FieldAt dm
        (LinkedTableName (index_map zero_LinkToSingle (LinksToSingle currentRoot) p0))
        rest
  end.

(** A hop of [path] that the data model does not know: the current table
    name is not declared, or a link name before the last element is not a
    link of the current table. *)
Fixpoint unrecognized_hop (dm : DataModel) (rootName : string) (path : list string)
  : bool :=
  match Tables dm !! rootName with
  | None => true
  | Some t =>
      match path with
      | [] | [_] => false
      | l :: rest =>
          match LinksToSingle t !! l with
          | None => true
          | Some lk => unrecognized_hop dm (LinkedTableName lk) rest
          end
      end
  end.

(** The data model of the specification's example: [orders] has a link
    [customer] to [customers], which declares a string field [name]. *)
Definition example_orders : Table :=
  {| Fields := {[ "status" := {| DataType_ := String |} ]};
     LinksToSingle :=
       {[ "customer" := {| LinkedTableName := "customers";
                           ParentFieldName := "object_id";
                           ChildFieldName := "customer_id" |} ]} |}.
Definition example_customers : Table :=
  {| Fields := {[ "name" := {| DataType_ := String |} ]}; LinksToSingle := ∅ |}.
Definition example_data_model : DataModel :=
  {| Tables := {[ "orders" := example_orders; "customers" := example_customers ]} |}.

End app.

(** ** Package [ast]: values, errors, arguments, result tree *)
Module ast.

(** Modelled from the spec: the error kinds of the engine, whose
    declarations are not among the available sources.  [ErrArgumentInvalidType]
    and [ErrRuntimeExpression] are the sentinels the evaluators wrap; the
    other kinds are listed as the specification names them. *)
Inductive ErrorKind : Set :=
| ArgumentMissing
| ArgumentInvalidType
| RuntimeExpression
| NullValue
| NotFoundInData.

(** Go [error] values as the evaluators build them: a sentinel,
    [errors.Wrap(err, msg)], [errors.Join(errs...)] and
    [ast.NewNamedArgumentError(name)]. *)
Inductive error : Type :=
| Sentinel (kind : ErrorKind)
| Wrap (err : error) (msg : string)
| Join (errs : list error)
| NewNamedArgumentError (argumentName : string).

Definition ErrArgumentInvalidType : error := Sentinel ArgumentInvalidType.
Definition ErrRuntimeExpression : error := Sentinel RuntimeExpression.

Definition ErrorKind_eqb (a b : ErrorKind) : bool :=
  match a, b with
  | ArgumentMissing, ArgumentMissing
  | ArgumentInvalidType, ArgumentInvalidType
  | RuntimeExpression, RuntimeExpression
  | NullValue, NullValue
  | NotFoundInData, NotFoundInData => true
  | _, _ => false
  end.

(** [errors.Is(err, sentinel)]: the sentinel occurs in the chain of [err],
    through wraps and joins. *)
Fixpoint errors_Is (err : error) (kind : ErrorKind) : bool :=
  match err with
  | Sentinel k => ErrorKind_eqb k kind
  | Wrap e _ => errors_Is e kind
  | Join es => existsb (fun e => errors_Is e kind) es
  | NewNamedArgumentError _ => false
  end.

(** The named argument an error is attributed to. *)
Fixpoint names_argument (err : error) (name : string) : bool :=
  match err with
  | Sentinel _ => false
  | Wrap e _ => names_argument e name
  | Join es => existsb (fun e => names_argument e name) es
  | NewNamedArgumentError n => String.eqb n name
  end.

(** [type FilterOperator string]. *)
Abbreviation FilterOperator := string (only parsing).

(** [time.Time]: an instant and a location; [Equal] compares instants. *)
Record Time : Set := { instant : Z; location : string }.
Definition Time_Equal (t u : Time) : bool := Z.eqb (instant t) (instant u).

(** The dynamic values ([any]) that flow through the evaluators: nil,
    strings, booleans, integers ([int64] as [Z]), [float64], timestamps,
    slices, and the [Filter] descriptor, a struct with the four fields the
    [Filter] evaluator fills in. *)
Inductive any : Type :=
| ANil
| AString (s : string)
| ABool (b : bool)
| AInt64 (n : Z)
| AFloat64 (f : float)
| ATime (t : Time)
| AStrings (l : list string)
| ASlice (l : list any)
| AFilter (f : Filter)
with Filter : Type :=
| Build_Filter (TableName FieldName : string) (Operator : FilterOperator) (Value : any).

Definition TableName (f : Filter) : string :=
  match f with Build_Filter t _ _ _ => t end.
Definition FieldName (f : Filter) : string :=
  match f with Build_Filter _ n _ _ => n end.
Definition Operator (f : Filter) : FilterOperator :=
  match f with Build_Filter _ _ o _ => o end.
Definition Value (f : Filter) : any :=
  match f with Build_Filter _ _ _ v => v end.

(** [value == nil] on an [any]. *)
Definition is_nil (v : any) : bool :=
  match v with ANil => true | _ => false end.

(** [ast.Arguments]: the resolved operands, positional and named. *)
Record Arguments : Type := {
  Args : list any;
  NamedArgs : gmap string any
}.

(** The result tree.  [NamedChildren] is a Go map: it is kept as the list of
    its entries, and ranging over it visits them in an order the run time
    chooses. *)
Inductive NodeEvaluation : Type := Build_NodeEvaluation {
  ReturnValue : any;
  Errors : list error;
  Children : list NodeEvaluation;
  NamedChildren : list (string * NodeEvaluation)
}.

(** The closure [addEvaluationErrors] of [AllErrors], with the captured
    slice [errs] passed explicitly: [addEvaluationErrors child errs errs']
    holds when a call on [child] that starts with [errs] can end with
    [errs'].  The two [for ... range] loops are [range_Children] (a slice, in
    order) and [range_NamedChildren] (applied to some permutation of the
    map's entries).  Appending a nil slice changes nothing, so the guard
    [child.Errors != nil] needs no case of its own. *)
Inductive addEvaluationErrors : NodeEvaluation → list error → list error → Prop :=
| addEvaluationErrors_body child errs errs1 errs2 order :
    range_Children (Children child) (errs ++ Errors child) errs1 →
    order ≡ₚ NamedChildren child →
    range_NamedChildren order errs1 errs2 →
    addEvaluationErrors child errs errs2
with range_Children : list NodeEvaluation → list error → list error → Prop :=
| range_Children_done errs : range_Children [] errs errs
| range_Children_next child rest errs errs1 errs2 :
    addEvaluationErrors child errs errs1 →
    range_Children rest errs1 errs2 →
    range_Children (child :: rest) errs errs2
with range_NamedChildren
  : list (string * NodeEvaluation) → list error → list error → Prop :=
| range_NamedChildren_done errs : range_NamedChildren [] errs errs
| range_NamedChildren_next name child rest errs errs1 errs2 :
    addEvaluationErrors child errs errs1 →
    range_NamedChildren rest errs1 errs2 →
    range_NamedChildren ((name, child) :: rest) errs errs2.

Scheme addEvaluationErrors_mut := Induction for addEvaluationErrors Sort Prop
  with range_Children_mut := Induction for range_Children Sort Prop
  with range_NamedChildren_mut := Induction for range_NamedChildren Sort Prop.

(** [func (root NodeEvaluation) AllErrors() (errs []error)]: the closure is
    called on the root with [errs] nil. *)
Definition AllErrors (root : NodeEvaluation) (errs : list error) : Prop :=
  addEvaluationErrors root [] errs.

(** One run of [AllErrors], the one in which every map is ranged over in the
    order its entries are listed. *)
Fixpoint AllErrors_listed (root : NodeEvaluation) : list error :=
  Errors root
  ++ flat_map AllErrors_listed (Children root)
  ++ flat_map (fun entry => AllErrors_listed (snd entry)) (NamedChildren root).

(** The pre-order flattening in the words of the specification, one level
    at a time:
    [errs] is the node's own errors, then one flattening per positional
    child in sequence order, then one flattening per named child. *)
Inductive preorder : NodeEvaluation → list error → Prop :=
| preorder_node node order flatChildren flatNamed :
    Forall2 preorder (Children node) flatChildren →
    order ≡ₚ NamedChildren node →
    Forall2 preorder (snd <$> order) flatNamed →
    preorder node (Errors node ++ concat flatChildren ++ concat flatNamed).

End ast.

(** ** JSON documents, as [encoding/json] hands them to the operators *)
Module json.

(** A parsed JSON document.  Object members keep their order and their
    duplicates. *)
Inductive Value : Type :=
| JNull
| JBool (b : bool)
| JNumber (literal : string)
| JString (s : string)
| JArray (elements : list Value)
| JObject (members : list (string * Value)).

(** [json.RawMessage] and the [[]byte] arguments of [json.Unmarshal]: the
    bytes of one document, or no bytes at all ([None], the zero value a
    [RawMessage] field keeps when its key is absent). *)
Definition RawMessage : Type := option Value.

Fixpoint height (v : Value) : nat :=
  match v with
  | JArray elements => S (foldr (fun e acc => Nat.max (height e) acc) 0%nat elements)
  | JObject members =>
      S (foldr (fun member acc => Nat.max (height (snd member)) acc) 0%nat members)
  | _ => 1
  end.

Definition height_raw (raw : RawMessage) : nat :=
  match raw with Some v => height v | None => 0 end.

Definition lower (c : Ascii.ascii) : Ascii.ascii :=
  let n := Ascii.nat_of_ascii c in
  if (65 <=? n)%nat && (n <=? 90)%nat then Ascii.ascii_of_nat (n + 32) else c.

Fixpoint to_lower (s : string) : string :=
  match s with
  | EmptyString => EmptyString
  | String c rest => String (lower c) (to_lower rest)
  end.

(** A member key selects the struct field tagged [name] (a lower-case tag):
    the match is case-insensitive. *)
Definition selects (name key : string) : bool := String.eqb (to_lower key) name.

(** The Go name of a document's kind, for type errors. *)
Definition kind (v : Value) : string :=
  match v with
  | JNull => "null"
  | JBool _ => "bool"
  | JNumber _ => "number"
  | JString _ => "string"
  | JArray _ => "array"
  | JObject _ => "object"
  end.

End json.

(** ** Package [operators]: the legacy boolean operators and the registry *)
Module operators.
Import json.

(** Errors are built by [fmt.Errorf]; those of [encoding/json] are a syntax
    error (here only: no input) and a type error. *)
Inductive error : Type :=
| SyntaxError (msg : string)
| UnmarshalTypeError (value target : string)
| Errorf (msg : string)
| Errorf_w (prefix : string) (wrapped : error).

(** [err.Error()]. *)
Fixpoint Error (err : error) : string :=
  match err with
  | SyntaxError msg => msg
  | UnmarshalTypeError value target =>
      "json: cannot unmarshal " +:+ value +:+ " into Go value of type " +:+ target
  | Errorf msg => msg
  | Errorf_w prefix wrapped => prefix +:+ Error wrapped
  end.

(** The innermost error of a [%w] chain. *)
Fixpoint cause (err : error) : error :=
  match err with
  | Errorf_w _ wrapped => cause wrapped
  | _ => err
  end.

(** The operator variants of this file: [True] and [False] (written
    [True_] and [False_], the plain names being those of the propositions)
    and [EqBool struct{ Left, Right OperatorBool }].  Operand slots hold
    operators. *)
Inductive OperatorBool : Type :=
| True_
| False_
| EqBool (Left Right : OperatorBool).

(** [Eval]; none of the three variants reads the data accessor. *)
Fixpoint Eval (op : OperatorBool) : bool :=
  match op with
  | True_ => true
  | False_ => false
  | EqBool l r => Bool.eqb (Eval l) (Eval r)
  end.

Fixpoint Print (op : OperatorBool) : string :=
  match op with
  | True_ => "TRUE"
  | False_ => "FALSE"
  | EqBool l r => "( " +:+ Print l +:+ " =bool " +:+ Print r +:+ " )"
  end.

(** What a registered constructor ([func() Operator]) returns: a pointer to
    the zero value of a variant.  [&True{}], [&False{}] and [&EqBool{}]
    implement [OperatorBool]; the registry holds every [Operator], and one
    that does not implement [OperatorBool] is kept as [NotBool], with the
    name of its Go type. *)
Inductive Operator : Type :=
| NewTrue
| NewFalse
| NewEqBool
| NotBool (goType : string).

(** A freshly constructed operator seen through the interface
    [OperatorBool]: [*True], [*False] or [*EqBool], operands not yet set. *)
Inductive newOperatorBool : Set := PtrTrue | PtrFalse | PtrEqBool.

(** The type assertion [opFunc().(OperatorBool)]. *)
Definition castOperatorBool (op : Operator) : option newOperatorBool :=
  match op with
  | NewTrue => Some PtrTrue
  | NewFalse => Some PtrFalse
  | NewEqBool => Some PtrEqBool
  | NotBool _ => None
  end.

(** The registry [operatorFromType], an explicit value here. *)
Abbreviation Registry := (gmap string Operator).

(** The registrations made by the three [init] functions of the file. *)
Definition register_TRUE (operatorFromType : Registry) : Registry :=
  <["TRUE" := NewTrue]> operatorFromType.
Definition register_FALSE (operatorFromType : Registry) : Registry :=
  <["FALSE" := NewFalse]> operatorFromType.
Definition register_EQBOOL (operatorFromType : Registry) : Registry :=
  <["EQBOOL" := NewEqBool]> operatorFromType.

Definition operatorFromType : Registry :=
  register_EQBOOL (register_FALSE (register_TRUE ∅)).

(** *** Encoding *)

(** Modelled from the spec: the embedded struct [OperatorType] is declared
    in a file that is not available; in the wire format its field [Type] is the member [type]
    of the envelope. *)
Definition OperatorType_tag : string := "type".

(** [struct { OperatorType; Data T `json:"data"` }] as [json.Marshal] writes
    it. *)
Definition envelope (type : string) (data : Value) : Value :=
  JObject [(OperatorType_tag, JString type); ("data", data)].

(** [MarshalJSON] of the three variants; the nested operands of [EqBool] are
    marshalled through their own [MarshalJSON].  None of them fails. *)
Fixpoint MarshalJSON (op : OperatorBool) : Value :=
  match op with
  | True_ => envelope "TRUE" (JString "")
  | False_ => envelope "FALSE" (JString "")
  | EqBool l r =>
      envelope "EQBOOL" (JObject [("left", MarshalJSON l); ("right", MarshalJSON r)])
  end.

(** *** Decoding *)

(** The intermediate representation [_op] of [unmarshalOperatorBool]. *)
Record typeData : Type := { Type' : string; Data : RawMessage }.

Definition first_error (saved : option error) (err : error) : option error :=
  match saved with Some e => Some e | None => Some err end.

(** One object member decoded into [_op]: [type] takes a string (null leaves
    it alone, anything else is a type error, saved while decoding goes on),
    [data] keeps the raw document, other members are skipped. *)
Definition decode_typeData_member (acc : typeData * option error)
  (member : string * Value) : typeData * option error :=
  let '(op, saved) := acc in
  let '(key, v) := member in
  if selects OperatorType_tag key then
    match v with
    | JString s => ({| Type' := s; Data := Data op |}, saved)
    | JNull => (op, saved)
    | _ => (op, first_error saved (UnmarshalTypeError (kind v) "string"))
    end
  else if selects "data" key then ({| Type' := Type' op; Data := Some v |}, saved)
  else (op, saved).

(** [json.Unmarshal(jsonBytes, &_op)]. *)
Definition Unmarshal_typeData (jsonBytes : RawMessage) : typeData * option error :=
  let zero := {| Type' := ""; Data := None |} in
  match jsonBytes with
  | None => (zero, Some (SyntaxError "unexpected end of JSON input"))
  | Some (JObject members) => fold_left decode_typeData_member members (zero, None)
  | Some JNull => (zero, None)
  | Some v => (zero, Some (UnmarshalTypeError (kind v) "struct"))
  end.

(** The intermediate representation [eqData] of [EqBool.UnmarshalJSON]. *)
Record leftRight : Type := { LeftOp : RawMessage; RightOp : RawMessage }.

Definition decode_leftRight_member (acc : leftRight) (member : string * Value)
  : leftRight :=
  let '(key, v) := member in
  if selects "left" key then {| LeftOp := Some v; RightOp := RightOp acc |}
  else if selects "right" key then {| LeftOp := LeftOp acc; RightOp := Some v |}
  else acc.

(** [json.Unmarshal(b, &eqData)] on the document [b]. *)
Definition Unmarshal_leftRight (b : Value) : leftRight * option error :=
  let zero := {| LeftOp := None; RightOp := None |} in
  match b with
  | JObject members => (fold_left decode_leftRight_member members zero, None)
  | JNull => (zero, None)
  | v => (zero, Some (UnmarshalTypeError (kind v) "struct"))
  end.

(** A computation that may run out of fuel. *)
Inductive run (A : Type) : Type :=
| Done (a : A)
| OutOfFuel.
Arguments Done {A} a.
Arguments OutOfFuel {A}.

(** What a decoding function returns: every [return] of
    [unmarshalOperatorBool] is [nil, err] or [op, nil], and an
    [UnmarshalJSON] returns an error or leaves its receiver filled. *)
Inductive decoded : Type :=
| Failed (err : error)
| Decoded (op : OperatorBool).

Definition returned_error (d : decoded) : option error :=
  match d with Failed err => Some err | Decoded _ => None end.

(** [func (eq *EqBool) UnmarshalJSON(b []byte) error], over the decoder of
    operands it calls back. *)
Definition EqBool_UnmarshalJSON (unmarshalOperatorBool : RawMessage → run decoded)
  (b : Value) : run decoded :=
  match Unmarshal_leftRight b with
  | (_, Some err) =>
      Done (Failed (Errorf_w
        "unable to unmarshal operator to intermediate left/right representation: " err))
  | (eqData, None) =>
      match unmarshalOperatorBool (LeftOp eqData) with
      | OutOfFuel => OutOfFuel
      | Done (Failed err) =>
          Done (Failed (Errorf_w "unable to instantiate Left operator: " err))
      | Done (Decoded leftOp) =>
          match unmarshalOperatorBool (RightOp eqData) with
          | OutOfFuel => OutOfFuel
          | Done (Failed err) =>
              Done (Failed (Errorf_w "unable to instantiate Right operator: " err))
          | Done (Decoded rightOp) => Done (Decoded (EqBool leftOp rightOp))
          end
      end
  end.

(** [func (t *True) UnmarshalJSON(b []byte) error] and its twin for [False]
    return nil whatever the bytes. *)
Definition True_UnmarshalJSON (b : Value) : run decoded := Done (Decoded True_).
Definition False_UnmarshalJSON (b : Value) : run decoded := Done (Decoded False_).

(** [json.Unmarshal(_op.Data, op)]: without bytes it fails; otherwise the
    document goes to the [UnmarshalJSON] of the variant. *)
Definition Unmarshal_operator (unmarshalOperatorBool : RawMessage → run decoded)
  (data : RawMessage) (op : newOperatorBool) : run decoded :=
  match data with
  | None => Done (Failed (SyntaxError "unexpected end of JSON input"))
  | Some b =>
      match op with
      | PtrTrue => True_UnmarshalJSON b
      | PtrFalse => False_UnmarshalJSON b
      | PtrEqBool => EqBool_UnmarshalJSON unmarshalOperatorBool b
      end
  end.

(** [func unmarshalOperatorBool(jsonBytes []byte) (OperatorBool, error)],
    with the registry as an argument and fuel for the recursion through
    [EqBool.UnmarshalJSON]. *)
Fixpoint unmarshalOperatorBool_fuel (fuel : nat) (operatorFromType : Registry)
  (jsonBytes : RawMessage) : run decoded :=
  match fuel with
  | O => OutOfFuel
  | S fuel' =>
      match Unmarshal_typeData jsonBytes with
      | (_, Some err) =>
          Done (Failed (Errorf_w
            "unable to unmarshal operator to intermediate type/data representation: "
            err))
      | (_op, None) =>
          match operatorFromType !! Type' _op with
          | None =>
              Done (Failed (Errorf ("operator " +:+ Type' _op +:+ " not registered")))
          | Some opFunc =>
              match castOperatorBool opFunc with
              | None =>
                  Done (Failed (Errorf
                    ("operator " +:+ Type' _op +:+ " could not be cast to OperatorBool")))
              | Some op =>
                  match Unmarshal_operator
                          (unmarshalOperatorBool_fuel fuel' operatorFromType)
                          (Data _op) op with
                  | OutOfFuel => OutOfFuel
                  | Done (Failed err) =>
                      Done (Failed (Errorf_w
                        ("operator " +:+ Type' _op +:+ " could not be unmarshalled: ")
                        err))
                  | Done (Decoded op') => Done (Decoded op')
                  end
              end
          end
      end
  end.

(** Fuel that is always enough: one unit per level of the document. *)
Definition unmarshalOperatorBool (operatorFromType : Registry)
  (jsonBytes : RawMessage) : run decoded :=
  unmarshalOperatorBool_fuel (S (height_raw jsonBytes)) operatorFromType jsonBytes.

(** *** Persisted trees *)




(** A registry that also holds an operator of another result type. *)
Definition example_registry : Registry :=
  <["SCALAR" := NotBool "*Scalar"]> operatorFromType.

End operators.

(** ** Package [models]: the data model the evaluators read *)
Module models.

(** Modelled from the spec: [models.DataType], the declared scalar types
    (boolean, integer, float, string, timestamp).  The declaration is not
    available; the constants are those the evaluators and the payload
    parser name, in the order of [app.DataType], with [Timestamp] after
    them, and the records below have the shape of those of package [app]. *)
Inductive DataType : Set := Bool | Int | Float | String | Timestamp.

#[global] Instance DataType_eq_dec : EqDecision DataType.
Proof. solve_decision. Defined.

Definition DataType_String (d : DataType) : string :=
  match d with
  | Bool => "Bool"
  | Int => "Int"
  | Float => "Float"
  | String => "String"
  | Timestamp => "Timestamp"
  end.

Record Field : Set := { DataType_ : DataType }.
Record Table : Type := { Fields : gmap string Field }.
Record DataModel : Type := { Tables : gmap string Table }.

End models.

(** ** Package [evaluate]: the [Equal] and [Filter] evaluators *)
Module evaluate.
Import ast.

(** *** Helpers of the package whose code is not available *)

(** The coercions of dynamic values.  Their code is not available: the
    evaluators are embedded over any implementation of them.  Each returns
    the Go pair [(T, error)]. *)
Class Coercions : Type := {
  adaptArgumentToString : any → string * option error;
  adaptArgumentToBool : any → bool * option error;
  promoteArgumentToInt64 : any → Z * option error;
  promoteArgumentToFloat64 : any → float * option error;
  adaptArgumentToTime : any → Time * option error;
  adaptArgumentToListOfStrings : any → list string * option error;
  promoteArgumentToDataType : any → models.DataType → any * option error
}.

(** The constants of [ast.FilterOperator].  Their values are not
    available; they are the keys of a map literal, hence pairwise distinct. *)
Class FilterOperators : Type := {
  FILTER_EQUAL : FilterOperator;
  FILTER_NOT_EQUAL : FilterOperator;
  FILTER_GREATER : FilterOperator;
  FILTER_GREATER_OR_EQUAL : FilterOperator;
  FILTER_LESSER : FilterOperator;
  FILTER_LESSER_OR_EQUAL : FilterOperator;
  FILTER_IS_IN_LIST : FilterOperator;
  FILTER_IS_NOT_IN_LIST : FilterOperator;
  FILTER_IS_EMPTY : FilterOperator;
  FILTER_IS_NOT_EMPTY : FilterOperator;
  FILTER_STARTS_WITH : FilterOperator;
  FILTER_ENDS_WITH : FilterOperator;
  FILTER_FUZZY_MATCH : FilterOperator;
  FILTER_distinct :
    NoDup [FILTER_EQUAL; FILTER_NOT_EQUAL; FILTER_GREATER; FILTER_GREATER_OR_EQUAL;
           FILTER_LESSER; FILTER_LESSER_OR_EQUAL; FILTER_IS_IN_LIST;
           FILTER_IS_NOT_IN_LIST; FILTER_IS_EMPTY; FILTER_IS_NOT_EMPTY;
           FILTER_STARTS_WITH; FILTER_ENDS_WITH; FILTER_FUZZY_MATCH]
}.

(** Modelled from the spec: [MakeEvaluateResult] and [MakeEvaluateError],
    whose code is not available, build the pair [(value, []error)] an evaluate function
    returns: the value with no error, or no value with the one error. *)
Definition MakeEvaluateResult (result : any) : any * list error := (result, []).
Definition MakeEvaluateError (err : error) : any * list error := (ANil, [err]).

(** Modelled from the spec: [filterNilErrors], not available, keeps the
    errors that are not nil, in order. *)
Definition filterNilErrors (errs : list (option error)) : list error :=
  omap id errs.

(** Modelled from the spec: [leftAndRight], not available, resolves the
    two operands of a binary operator; any other number of operands is an
    argument error. *)
Definition leftAndRight (args : list any) : any * any * option error :=
  match args with
  | [l; r] => (l, r, None)
  | _ => (ANil, ANil,
          Some (Wrap (Sentinel ArgumentMissing) "expected exactly two arguments"))
  end.

(** Modelled from the spec: [adaptLeftAndRight], not available, coerces
    both operands with the same adapter and reports the errors of the
    operands that do not coerce. *)
Definition adaptLeftAndRight {T : Type} (leftAny rightAny : any)
  (adapter : any → T * option error) : T * T * list error :=
  let '(l, leftErr) := adapter leftAny in
  let '(r, rightErr) := adapter rightAny in
  (l, r, filterNilErrors [leftErr; rightErr]).

(** Modelled from the spec: [AdaptNamedArgument], not available, reads a
    named argument and coerces it; a missing argument is an
    argument-missing error, a failed coercion keeps its error, and both are
    attributed to the argument by name.  [zero] is the zero value of [T]. *)
Definition AdaptNamedArgument {T : Type} (zero : T) (namedArgs : gmap string any)
  (name : string) (adapter : any → T * option error) : T * option error :=
  match namedArgs !! name with
  | None =>
      (zero, Some (Join [Wrap (Sentinel ArgumentMissing)
                           ("missing named argument " +:+ name);
                         NewNamedArgumentError name]))
  | Some v =>
      match adapter v with
      | (result, None) => (result, None)
      | (_, Some err) => (zero, Some (Join [err; NewNamedArgumentError name]))
      end
  end.

(** Modelled from the spec: [getFieldType], not available, looks the
    table and then the field up in the data model and rejects unknown names
    (a runtime-expression error, as for any unknown field). *)
Definition getFieldType (dataModel : models.DataModel) (tableName fieldName : string)
  : models.DataType * option error :=
  match models.Tables dataModel !! tableName with
  | None =>
      (models.Bool,
       Some (Wrap ErrRuntimeExpression ("unknown table " +:+ tableName)))
  | Some table =>
      match models.Fields table !! fieldName with
      | None =>
          (models.Bool,
           Some (Wrap ErrRuntimeExpression
                   ("unknown field " +:+ tableName +:+ "." +:+ fieldName)))
      | Some field => (models.DataType_ field, None)
      end
  end.

(** *** [Equal] *)

Definition floatEqualityThreshold : float := 1e-8%float.

(** [func (f Equal) Evaluate(ctx, arguments) (any, []error)]: one [if] per
    rung, each guarded by [len(errs) == 0]. *)
Definition Equal_Evaluate `{Coercions} (arguments : Arguments) : any * list error :=
  match leftAndRight (Args arguments) with
  | (_, _, Some err) => MakeEvaluateError err
  | (leftAny, rightAny, None) =>
  match adaptLeftAndRight leftAny rightAny adaptArgumentToString with
  | (l, r, []) => MakeEvaluateResult (ABool (String.eqb l r))
  | _ =>
  match adaptLeftAndRight leftAny rightAny adaptArgumentToBool with
  | (l, r, []) => MakeEvaluateResult (ABool (Bool.eqb l r))
  | _ =>
  match adaptLeftAndRight leftAny rightAny promoteArgumentToInt64 with
  | (l, r, []) => MakeEvaluateResult (ABool (Z.eqb l r))
  | _ =>
  match adaptLeftAndRight leftAny rightAny promoteArgumentToFloat64 with
  | (l, r, []) =>
      MakeEvaluateResult
        (ABool (PrimFloat.ltb (PrimFloat.abs (PrimFloat.sub l r))
                  floatEqualityThreshold))
  | _ =>
  match adaptLeftAndRight leftAny rightAny adaptArgumentToTime with
  | (l, r, []) => MakeEvaluateResult (ABool (Time_Equal l r))
  | _ =>
      MakeEvaluateError
        (Wrap ErrArgumentInvalidType
           "all arguments to Equal Evaluate must be string, boolean, time, int or float")
  end end end end end end.

(** The ladder in the words of the specification: the representations in
    priority order, the first one both operands coerce into, and the
    equality of that representation. *)
Inductive Representation : Set := AsString | AsBool | AsInt64 | AsFloat64 | AsTime.

Definition coerces {T : Type} (adapter : any → T * option error) (v : any) : bool :=
  match adapter v with (_, None) => true | (_, Some _) => false end.

Definition coerces_into `{Coercions} (rep : Representation) (v : any) : bool :=
  match rep with
  | AsString => coerces adaptArgumentToString v
  | AsBool => coerces adaptArgumentToBool v
  | AsInt64 => coerces promoteArgumentToInt64 v
  | AsFloat64 => coerces promoteArgumentToFloat64 v
  | AsTime => coerces adaptArgumentToTime v
  end.

Definition ladder : list Representation := [AsString; AsBool; AsInt64; AsFloat64; AsTime].

Definition first_shared_representation `{Coercions} (l r : any)
  : option Representation :=
  find (fun rep => coerces_into rep l && coerces_into rep r) ladder.

Definition typed_equality `{Coercions} (rep : Representation) (l r : any) : bool :=
  match rep with
  | AsString => String.eqb (adaptArgumentToString l).1 (adaptArgumentToString r).1
  | AsBool => Bool.eqb (adaptArgumentToBool l).1 (adaptArgumentToBool r).1
  | AsInt64 => Z.eqb (promoteArgumentToInt64 l).1 (promoteArgumentToInt64 r).1
  | AsFloat64 =>
      PrimFloat.ltb
        (PrimFloat.abs
           (PrimFloat.sub (promoteArgumentToFloat64 l).1 (promoteArgumentToFloat64 r).1))
        floatEqualityThreshold
  | AsTime => Time_Equal (adaptArgumentToTime l).1 (adaptArgumentToTime r).1
  end.

(** *** [Filter] *)

Record FilterEvaluator : Type := { DataModel : models.DataModel }.

(** [var validTypeForFilterOperators = map[ast.FilterOperator][]models.DataType{...}]:
    the map of the literal's entries. *)
Definition validTypeForFilterOperators_entries `{FilterOperators}
  : list (FilterOperator * list models.DataType) :=
  [ (FILTER_EQUAL,
      [models.Bool; models.Int; models.Float; models.String; models.Timestamp]);
    (FILTER_NOT_EQUAL,
      [models.Bool; models.Int; models.Float; models.String; models.Timestamp]);
    (FILTER_GREATER, [models.Int; models.Float; models.String; models.Timestamp]);
    (FILTER_GREATER_OR_EQUAL,
      [models.Int; models.Float; models.String; models.Timestamp]);
    (FILTER_LESSER, [models.Int; models.Float; models.String; models.Timestamp]);
    (FILTER_LESSER_OR_EQUAL,
      [models.Int; models.Float; models.String; models.Timestamp]);
    (FILTER_IS_IN_LIST, [models.String]);
    (FILTER_IS_NOT_IN_LIST, [models.String]);
    (FILTER_IS_EMPTY,
      [models.Bool; models.Int; models.Float; models.String; models.Timestamp]);
    (FILTER_IS_NOT_EMPTY,
      [models.Bool; models.Int; models.Float; models.String; models.Timestamp]);
    (FILTER_STARTS_WITH, [models.String]);
    (FILTER_ENDS_WITH, [models.String]);
    (FILTER_FUZZY_MATCH, [models.String]) ].

Definition validTypeForFilterOperators `{FilterOperators}
  : gmap FilterOperator (list models.DataType) :=
  list_to_map validTypeForFilterOperators_entries.

(** [slices.Contains]. *)
Definition slices_Contains (s : list models.DataType) (v : models.DataType) : bool :=
  bool_decide (v ∈ s).

(** [reflect.TypeOf(value) == reflect.TypeOf(float64(0))]. *)
Definition is_float64 (v : any) : bool :=
  match v with AFloat64 _ => true | _ => false end.

(** The [switch] that promotes the comparison value. *)
Definition promoteValue `{Coercions} `{FilterOperators}
  (operator : FilterOperator) (fieldType : models.DataType) (value : any)
  : any * option error :=
  if String.eqb operator FILTER_FUZZY_MATCH then (value, None)
  else if bool_decide (fieldType = models.Int) && is_float64 value then (value, None)
  else if String.eqb operator FILTER_IS_IN_LIST
          || String.eqb operator FILTER_IS_NOT_IN_LIST then
    let '(strings, err) := adaptArgumentToListOfStrings value in (AStrings strings, err)
  else promoteArgumentToDataType value fieldType.

(** [func (f FilterEvaluator) Evaluate(ctx, arguments) (any, []error)]. *)
Definition FilterEvaluator_Evaluate `{Coercions} `{FilterOperators}
  (f : FilterEvaluator) (arguments : Arguments) : any * list error :=
  let '(tableName, tableNameErr) :=
    AdaptNamedArgument "" (NamedArgs arguments) "tableName" adaptArgumentToString in
  let '(fieldName, fieldNameErr) :=
    AdaptNamedArgument "" (NamedArgs arguments) "fieldName" adaptArgumentToString in
  let '(operatorStr, operatorErr) :=
    AdaptNamedArgument "" (NamedArgs arguments) "operator" adaptArgumentToString in
  let errs := filterNilErrors [tableNameErr; fieldNameErr; operatorErr] in
  if (0 <? length errs)%nat then (ANil, errs) else
  match getFieldType (DataModel f) tableName fieldName with
  | (_, Some err) =>
      MakeEvaluateError (Join [
        Wrap err ("field type for " +:+ tableName +:+ "." +:+ fieldName
                  +:+ " not found in data model in Evaluate filter");
        NewNamedArgumentError "fieldName"])
  | (fieldType, None) =>
  let operator : FilterOperator := operatorStr in
  match validTypeForFilterOperators !! operator with
  | None =>
      MakeEvaluateError (Join [
        Wrap ErrRuntimeExpression
          ("operator " +:+ operator +:+ " is not valid in Evaluate filter");
        NewNamedArgumentError "operator"])
  | Some validTypes =>
  if negb (slices_Contains validTypes fieldType) then
    MakeEvaluateError (Join [
      Wrap ErrArgumentInvalidType
        ("field type " +:+ models.DataType_String fieldType
         +:+ " is not valid for operator " +:+ operator +:+ " in Evaluate filter");
      NewNamedArgumentError "fieldName"])
  else
  let value := index_map ANil (NamedArgs arguments) "value" in
  if is_nil value then
    (AFilter (Build_Filter tableName fieldName operator ANil), [])
  else
  match promoteValue operator fieldType value with
  | (_, Some err) =>
      MakeEvaluateError (Join [
        Wrap ErrArgumentInvalidType
          ("value is not compatible with selected field " +:+ tableName +:+ "."
           +:+ fieldName +:+ " in Evaluate filter");
        NewNamedArgumentError "value";
        err])
  | (promotedValue, None) =>
      (AFilter (Build_Filter tableName fieldName operator promotedValue), [])
  end end end.

(** The data model declares field [fieldName] of table [tableName] with
    type [dataType]. *)
Definition declares (dataModel : models.DataModel) (tableName fieldName : string)
  (dataType : models.DataType) : Prop :=
  ∃ table, models.Tables dataModel !! tableName = Some table
           ∧ models.Fields table !! fieldName = Some {| models.DataType_ := dataType |}.

(** A named argument that is present and coerces to the string [s]. *)
Definition named_string `{Coercions} (arguments : Arguments) (name s : string) : Prop :=
  ∃ v, NamedArgs arguments !! name = Some v ∧ adaptArgumentToString v = (s, None).

(** *** One implementation of the absent helpers, for concrete runs *)

(** [float64(n)]: the nearest double. *)
Definition float64_of_int64 (n : Z) : float :=
  SF2Prim (binary_normalize prec emax n 0 false).

(** The integer a double denotes, when it denotes one in the range of
    [int64]. *)
Definition int64_of_float64 (f : float) : option Z :=
  let in_range (n : Z) : option Z :=
    if ((- 2 ^ 63 <=? n) && (n <? 2 ^ 63))%Z then Some n else None in
  match Prim2SF f with
  | S754_zero _ => Some 0%Z
  | S754_finite sign m e =>
      let signed (n : Z) : Z := if sign then (- n)%Z else n in
      if (0 <=? e)%Z then in_range (signed (Z.pos m * 2 ^ e)%Z)
      else if (Z.pos m mod 2 ^ (- e) =? 0)%Z
           then in_range (signed (Z.pos m / 2 ^ (- e))%Z)
           else None
  | _ => None
  end.

Definition not_a (what : string) : option error :=
  Some (Wrap ErrArgumentInvalidType ("argument is not a " +:+ what)).

(** Modelled from the spec: the coercions of package [evaluate], whose code is
    not available.  A string, a boolean and a timestamp coerce only into their own
    representation ([Equal("a", true)] has no shared representation); an
    integer promotes to int64 and to float64; a float promotes to float64,
    and to int64 when it is a whole number ([Equal(3, 3.0)] goes through the
    integer rung, [Equal(1.0, 1.0001)] through the float rung); the list
    operators take a list of strings; promotion to a declared type is the
    coercion into the representation of that type. *)
Definition spec_adaptArgumentToString (v : any) : string * option error :=
  match v with AString s => (s, None) | _ => ("", not_a "string") end.
Definition spec_adaptArgumentToBool (v : any) : bool * option error :=
  match v with ABool b => (b, None) | _ => (false, not_a "boolean") end.
Definition spec_promoteArgumentToInt64 (v : any) : Z * option error :=
  match v with
  | AInt64 n => (n, None)
  | AFloat64 f =>
      match int64_of_float64 f with
      | Some n => (n, None)
      | None => (0%Z, not_a "whole number")
      end
  | _ => (0%Z, not_a "number")
  end.
Definition spec_promoteArgumentToFloat64 (v : any) : float * option error :=
  match v with
  | AFloat64 f => (f, None)
  | AInt64 n => (float64_of_int64 n, None)
  | _ => (0%float, not_a "number")
  end.
Definition spec_adaptArgumentToTime (v : any) : Time * option error :=
  match v with
  | ATime t => (t, None)
  | _ => ({| instant := 0; location := "" |}, not_a "timestamp")
  end.
Definition spec_adaptArgumentToListOfStrings (v : any) : list string * option error :=
  match v with
  | AStrings l => (l, None)
  | ASlice l =>
      match mapM (fun e => match e with AString s => Some s | _ => None end) l with
      | Some strings => (strings, None)
      | None => ([], not_a "list of strings")
      end
  | _ => ([], not_a "list of strings")
  end.
Definition spec_promoteArgumentToDataType (v : any) (dataType : models.DataType)
  : any * option error :=
  match dataType with
  | models.Bool => let '(b, err) := spec_adaptArgumentToBool v in (ABool b, err)
  | models.Int => let '(n, err) := spec_promoteArgumentToInt64 v in (AInt64 n, err)
  | models.Float => let '(f, err) := spec_promoteArgumentToFloat64 v in (AFloat64 f, err)
  | models.String => let '(s, err) := spec_adaptArgumentToString v in (AString s, err)
  | models.Timestamp => let '(t, err) := spec_adaptArgumentToTime v in (ATime t, err)
  end.

Definition spec_Coercions : Coercions := {|
  adaptArgumentToString := spec_adaptArgumentToString;
  adaptArgumentToBool := spec_adaptArgumentToBool;
  promoteArgumentToInt64 := spec_promoteArgumentToInt64;
  promoteArgumentToFloat64 := spec_promoteArgumentToFloat64;
  adaptArgumentToTime := spec_adaptArgumentToTime;
  adaptArgumentToListOfStrings := spec_adaptArgumentToListOfStrings;
  promoteArgumentToDataType := spec_promoteArgumentToDataType
|}.

Definition spec_operator_names : list FilterOperator :=
  ["equal"; "not-equal"; "greater"; "greater-or-equal"; "lesser"; "lesser-or-equal";
   "is-in-list"; "is-not-in-list"; "is-empty"; "is-not-empty"; "starts-with";
   "ends-with"; "fuzzy-match"].

Lemma spec_operator_names_distinct : NoDup spec_operator_names.
Proof. apply (bool_decide_unpack _). vm_compute. exact I. Qed.

(** Modelled from the spec: the constants of [ast.FilterOperator], not
    available, under the names the specification gives the members of the
    enumeration. *)
Definition spec_FilterOperators : FilterOperators := {|
  FILTER_EQUAL := "equal";
  FILTER_NOT_EQUAL := "not-equal";
  FILTER_GREATER := "greater";
  FILTER_GREATER_OR_EQUAL := "greater-or-equal";
  FILTER_LESSER := "lesser";
  FILTER_LESSER_OR_EQUAL := "lesser-or-equal";
  FILTER_IS_IN_LIST := "is-in-list";
  FILTER_IS_NOT_IN_LIST := "is-not-in-list";
  FILTER_IS_EMPTY := "is-empty";
  FILTER_IS_NOT_EMPTY := "is-not-empty";
  FILTER_STARTS_WITH := "starts-with";
  FILTER_ENDS_WITH := "ends-with";
  FILTER_FUZZY_MATCH := "fuzzy-match";
  FILTER_distinct := spec_operator_names_distinct
|}.

(** The data model of the specification's examples for [Filter]: table
    [orders] with a string field [status], a float field [amount] and a
    boolean field [paid]. *)
Definition example_data_model : models.DataModel :=
  {| models.Tables :=
       {[ "orders" :=
            {| models.Fields :=
                 {[ "status" := {| models.DataType_ := models.String |};
                    "amount" := {| models.DataType_ := models.Float |};
                    "paid" := {| models.DataType_ := models.Bool |} ]} |} ]} |}.

Definition example_filter (fieldName : string) (operator : any) : Arguments :=
  {| Args := [];
     NamedArgs := {[ "tableName" := AString "orders";
                     "fieldName" := AString fieldName;
                     "operator" := operator ]} |}.

End evaluate.

(** ** Package [evaluate], continued: notions used to state further facts *)
Module evaluate_ext.
Import ast evaluate.

(** The members of the enumeration [ast.FilterOperator], in the order of the
    keys of [validTypeForFilterOperators]. *)
Definition FILTER_operators `{FilterOperators} : list FilterOperator :=
  [FILTER_EQUAL; FILTER_NOT_EQUAL; FILTER_GREATER; FILTER_GREATER_OR_EQUAL;
   FILTER_LESSER; FILTER_LESSER_OR_EQUAL; FILTER_IS_IN_LIST;
   FILTER_IS_NOT_IN_LIST; FILTER_IS_EMPTY; FILTER_IS_NOT_EMPTY;
   FILTER_STARTS_WITH; FILTER_ENDS_WITH; FILTER_FUZZY_MATCH].

(** A double that is neither an infinity nor a NaN. *)
Definition is_finite (f : float) : bool :=
  match Prim2SF f with
  | S754_zero _ | S754_finite _ _ _ => true
  | S754_infinity _ | S754_nan => false
  end.

(** The first representation of the ladder a single operand coerces into. *)
Definition first_representation `{Coercions} (v : any) : option Representation :=
  find (fun rep => coerces_into rep v) ladder.

(** A data model with an integer field, and filter arguments with a value. *)
Definition example_stock : models.DataModel :=
  {| models.Tables :=
       {[ "orders" :=
            {| models.Fields :=
                 {[ "status" := {| models.DataType_ := models.String |};
                    "quantity" := {| models.DataType_ := models.Int |} ]} |} ]} |}.

Definition example_filter_value (fieldName operator : string) (value : any)
  : Arguments :=
  {| Args := [];
     NamedArgs := {[ "tableName" := AString "orders";
                     "fieldName" := AString fieldName;
                     "operator" := AString operator;
                     "value" := value ]} |}.

End evaluate_ext.

(** ** Package [ast], continued: notions used to state further facts *)
Module ast_ext.
Import ast.

(** No node of the tree carries an error. *)
Fixpoint error_free (node : NodeEvaluation) : bool :=
  match Errors node with [] => true | _ :: _ => false end
  && forallb error_free (Children node)
  && forallb (fun entry => error_free (snd entry)) (NamedChildren node).

(** No node of the tree has more than one named child. *)
Fixpoint single_named (node : NodeEvaluation) : bool :=
  (length (NamedChildren node) <=? 1)%nat
  && forallb single_named (Children node)
  && forallb (fun entry => single_named (snd entry)) (NamedChildren node).

End ast_ext.

(** ** Package [app], continued: notions used to state further facts *)
Module app_ext.
Import app.

(** The path is made of declared names: each element but the last is a link
    of the table reached so far, and the last is a field of the table it
    leads to. *)
Inductive resolves (dm : DataModel) : string → list string → Field → Prop :=
| resolves_field rootName table fieldName field :
    Tables dm !! rootName = Some table →
    Fields table !! fieldName = Some field →
    resolves dm rootName [fieldName] field
| resolves_link rootName table linkName link path field :
    Tables dm !! rootName = Some table →
    LinksToSingle table !! linkName = Some link →
    resolves dm (LinkedTableName link) path field →
    resolves dm rootName (linkName :: path) field.

(** The table name reached from [rootName] by indexing the link maps along
    [links], as [FieldAt] does. *)
Fixpoint follow (dm : DataModel) (rootName : string) (links : list string) : string :=
  match links with
  | [] => rootName
  | l :: rest =>
      follow dm
        (LinkedTableName
           (index_map zero_LinkToSingle
              (LinksToSingle (index_map zero_Table (Tables dm) rootName)) l))
        rest
  end.

End app_ext.

(** ** Package [models]: scheduled executions and permissions *)
Module models_enums.

(** [type ScheduledExecutionStatus int] and its four constants; a value of
    the type is any [int]. *)
Definition ScheduledExecutionPending : Z := 0.
Definition ScheduledExecutionProcessing : Z := 1.
Definition ScheduledExecutionSuccess : Z := 2.
Definition ScheduledExecutionFailure : Z := 3.

(** [func (s ScheduledExecutionStatus) String() string]. *)
Definition ScheduledExecutionStatus_String (s : Z) : string :=
  if (s =? ScheduledExecutionPending)%Z then "pending"
  else if (s =? ScheduledExecutionProcessing)%Z then "processing"
  else if (s =? ScheduledExecutionSuccess)%Z then "success"
  else if (s =? ScheduledExecutionFailure)%Z then "failure"
  else "pending".

(** [func ScheduledExecutionStatusFrom(s string) ScheduledExecutionStatus]. *)
Definition ScheduledExecutionStatusFrom (s : string) : Z :=
  if String.eqb s "pending" then ScheduledExecutionPending
  else if String.eqb s "success" then ScheduledExecutionSuccess
  else if String.eqb s "failure" then ScheduledExecutionFailure
  else if String.eqb s "processing" then ScheduledExecutionProcessing
  else ScheduledExecutionPending.

(** [type Permission int]: the sixteen constants are [0] to [15], in the
    order of the names below. *)
Definition Permission_names : list string :=
  ["DECISION_READ"; "DECISION_CREATE"; "INGESTION"; "SCENARIO_READ";
   "SCENARIO_CREATE"; "SCENARIO_PUBLISH"; "DATA_MODEL_READ"; "APIKEY_READ";
   "ORGANIZATIONS_LIST"; "ORGANIZATIONS_CREATE"; "USER_CREATE";
   "MARBLE_USER_CREATE"; "MARBLE_USER_DELETE"; "ANY_ORGANIZATION_ID_IN_CONTEXT";
   "CUSTOM_LISTS_READ"; "CUSTOM_LISTS_PUBLISH"].

(** [func (r Permission) String() string]: the array literal indexed by
    [r]; an index outside the array panics. *)
Definition Permission_String (r : Z) : outcome string :=
  if ((r <? 0) || (Z.of_nat (length Permission_names) <=? r))%Z then
    Panics ("index out of range [" +:+ pretty r +:+ "] with length 16")
  else
    match Permission_names !! Z.to_nat r with
    | Some name => Returns name
    | None => Panics ("index out of range [" +:+ pretty r +:+ "] with length 16")
    end.

End models_enums.

(** ** Package [evaluate]: the database-access evaluator *)
Module database_access.
Import ast.

(** The errors of this file: the sentinels it names, errors of the
    collaborators, and [fmt.Errorf] with [%w]. *)
Inductive sentinel : Set :=
| ErrRuntimeExpression
| NotFoundInRepositoryError
| NotFoundError.

Inductive error : Type :=
| Sentinel (s : sentinel)
| Opaque (msg : string)
| Errorf_w (prefix : string) (wrapped : error).

Definition sentinel_eqb (a b : sentinel) : bool :=
  match a, b with
  | ErrRuntimeExpression, ErrRuntimeExpression
  | NotFoundInRepositoryError, NotFoundInRepositoryError
  | NotFoundError, NotFoundError => true
  | _, _ => false
  end.

(** [errors.Is(err, target)] for a sentinel [target]. *)
Fixpoint errors_Is (err : error) (target : sentinel) : bool :=
  match err with
  | Sentinel s => sentinel_eqb s target
  | Opaque _ => false
  | Errorf_w _ wrapped => errors_Is wrapped target
  end.

(** What the functions of the file return as [interface{}]: a dynamic value
    (nil included) or the zero [models.Decision] that [getDbField] returns
    beside its errors. *)
Inductive value : Type :=
| Dynamic (v : any)
| Decision_zero.

(** [models.DbFieldReadParams], over the types of the data model and of the
    payload reader. *)
Record DbFieldReadParams (DataModel Payload : Type) : Type := {
  TriggerTableName : string;
  Path : list string;
  FieldName : string;
  DataModel_ : DataModel;
  Payload_ : Payload
}.
Arguments TriggerTableName {DataModel Payload} _.
Arguments Path {DataModel Payload} _.
Arguments FieldName {DataModel Payload} _.
Arguments DataModel_ {DataModel Payload} _.
Arguments Payload_ {DataModel Payload} _.

(** The collaborators of [DatabaseAccess]: the data model repository, the
    transaction factory of the organization schema and the reader of
    ingested data.  They are interfaces in the source. *)
Class Collaborators : Type := {
  DataModel : Type;
  Payload : Type;
  Transaction : Type;
  GetDataModel : string → DataModel * option error;
  TransactionInOrgSchemaReturnValue :
    string → (Transaction → value * option error) → value * option error;
  GetDbField : Transaction → DbFieldReadParams DataModel Payload → value * option error
}.

(** [DatabaseAccess]: the fields that are data. *)
Record DatabaseAccess `{Collaborators} : Type := {
  Payload_of : Payload;
  OrganizationId : string
}.

(** The loop over [path]: every element must be a string. *)
Fixpoint path_strings (path : list any) (pathStringArr : list string)
  : option (list string) :=
  match path with
  | [] => Some pathStringArr
  | AString str :: rest => path_strings rest (pathStringArr ++ [str])
  | _ :: _ => None
  end.

(** [func (d DatabaseAccess) getDbField(tableName, fieldName, path)]. *)
Definition getDbField `{Collaborators} (d : DatabaseAccess)
  (tableName fieldName : string) (path : list string) : value * option error :=
  match GetDataModel (OrganizationId d) with
  | (dm, Some err) =>
      if errors_Is err NotFoundInRepositoryError then
        (Decision_zero, Some (Errorf_w "data model not found: " (Sentinel NotFoundError)))
      else
        (Decision_zero, Some (Errorf_w "error getting data model: " err))
  | (dm, None) =>
      TransactionInOrgSchemaReturnValue (OrganizationId d)
        (fun tx =>
           GetDbField tx
             {| TriggerTableName := tableName;
                Path := path;
                FieldName := fieldName;
                DataModel_ := dm;
                Payload_ := Payload_of d |})
  end.

(** [func (d DatabaseAccess) Evaluate(arguments ast.Arguments) (any, error)].
    The type assertions [.(string)] and [.([]any)] fail on an absent
    argument (nil) and on a value of any other dynamic type. *)
Definition Evaluate `{Collaborators} (d : DatabaseAccess) (arguments : Arguments)
  : value * option error :=
  match NamedArgs arguments !! "tableName" with
  | Some (AString tableName) =>
    match NamedArgs arguments !! "fieldName" with
    | Some (AString fieldName) =>
      match NamedArgs arguments !! "path" with
      | Some (ASlice path) =>
        match path_strings path [] with
        | None =>
            (Dynamic ANil,
             Some (Errorf_w "path value is not a string " (Sentinel ErrRuntimeExpression)))
        | Some pathStringArr =>
            match getDbField d tableName fieldName pathStringArr with
            | (_, Some err) =>
                (Dynamic ANil, Some (Errorf_w "getDbField not working " err))
            | (fieldValue, None) => (fieldValue, None)
            end
        end
      | _ =>
          (Dynamic ANil,
           Some (Errorf_w "path is not a string " (Sentinel ErrRuntimeExpression)))
      end
    | _ =>
        (Dynamic ANil,
         Some (Errorf_w "fieldName is not a string " (Sentinel ErrRuntimeExpression)))
    end
  | _ =>
      (Dynamic ANil,
       Some (Errorf_w "tableName is not a string " (Sentinel ErrRuntimeExpression)))
  end.

(** The arguments have the dynamic types [Evaluate] asserts: two strings and
    a [[]any] of strings. *)
Definition well_typed (arguments : Arguments) : bool :=
  match NamedArgs arguments !! "tableName",
        NamedArgs arguments !! "fieldName",
        NamedArgs arguments !! "path" with
  | Some (AString _), Some (AString _), Some (ASlice path) =>
      forallb (fun v => match v with AString _ => true | _ => false end) path
  | _, _, _ => false
  end.

(** Collaborators for concrete runs: a data model repository that knows the
    organization [org] only, and a reader that returns the path it was
    given as a list of strings. *)
Definition example_Collaborators : Collaborators := {|
  DataModel := unit;
  Payload := unit;
  Transaction := unit;
  GetDataModel := fun organizationId =>
    if String.eqb organizationId "org" then (tt, None)
    else (tt, Some (Errorf_w "no data model: " (Sentinel NotFoundInRepositoryError)));
  TransactionInOrgSchemaReturnValue := fun _ f => f tt;
  GetDbField := fun _ params => (Dynamic (AStrings (Path params)), None)
|}.

Definition example_access (organizationId : string)
  : @DatabaseAccess example_Collaborators :=
  @Build_DatabaseAccess example_Collaborators tt organizationId.

Definition example_arguments (path : any) : Arguments :=
  {| Args := [];
     NamedArgs := {[ "tableName" := AString "transactions";
                     "fieldName" := AString "status";
                     "path" := path ]} |}.

End database_access.

(** ** Package [operators]: reading a typed field of the payload *)
Module payload_access.

Inductive sentinel : Set :=
| OperatorNullValueReadError.

Inductive error : Type :=
| Sentinel (s : sentinel)
| Opaque (msg : string)
| Errorf (msg : string)
| Errorf_w (prefix : string) (wrapped : error).

Fixpoint errors_Is (err : error) (target : sentinel) : bool :=
  match err with
  | Sentinel OperatorNullValueReadError =>
      match target with OperatorNullValueReadError => true end
  | Opaque _ | Errorf _ => false
  | Errorf_w _ wrapped => errors_Is wrapped target
  end.

(** The type parameter [T string | bool | float64]. *)
Inductive T : Set :=
| T_string
| T_bool
| T_float64.

Definition denote (t : T) : Type :=
  match t with
  | T_string => string
  | T_bool => bool
  | T_float64 => float
  end.

(** [var output T]. *)
Definition zero (t : T) : denote t :=
  match t with
  | T_string => ""
  | T_bool => false
  | T_float64 => 0%float
  end.

(** [%T] of a value of type [T]. *)
Definition type_name (t : T) : string :=
  match t with
  | T_string => "string"
  | T_bool => "bool"
  | T_float64 => "float64"
  end.

(** What [GetPayloadField] returns as [interface{}]: nil, a pointer to one
    of the three types (nil or not), or a value of another dynamic type. *)
Inductive dynamic : Type :=
| Nil
| Pointer_string (target : option string)
| Pointer_bool (target : option bool)
| Pointer_float64 (target : option float)
| Other (dynamic_type : string).

(** The value of dynamic type [*T] that points to [target]. *)
Definition pointer (t : T) : option (denote t) → dynamic :=
  match t with
  | T_string => Pointer_string
  | T_bool => Pointer_bool
  | T_float64 => Pointer_float64
  end.

(** The type assertion [fieldRaw.( *T )]. *)
Definition assert_pointer (t : T) : dynamic → option (option (denote t)) :=
  match t with
  | T_string => λ raw, match raw with Pointer_string p => Some p | _ => None end
  | T_bool => λ raw, match raw with Pointer_bool p => Some p | _ => None end
  | T_float64 => λ raw, match raw with Pointer_float64 p => Some p | _ => None end
  end.

(** [DataAccessor], as far as this function uses it. *)
Definition DataAccessor : Type := string → dynamic * option error.

(** [func getPayloadFieldGeneric[T string | bool | float64](d DataAccessor,
    fieldName string) (T, error)]. *)
Definition getPayloadFieldGeneric (t : T) (d : DataAccessor) (fieldName : string)
  : denote t * option error :=
  let output := zero t in
  match d fieldName with
  | (fieldRaw, Some err) => (output, Some err)
  | (fieldRaw, None) =>
      match assert_pointer t fieldRaw with
      | None =>
          (output,
           Some (Errorf ("Payload field " +:+ "account_id"
                         +:+ " is not a pointer to the right type " +:+ type_name t)))
      | Some None =>
          (output,
           Some (Errorf_w ("Payload field " +:+ "account_id" +:+ " is null: ")
                   (Sentinel OperatorNullValueReadError)))
      | Some (Some v) => (v, None)
      end
  end.

End payload_access.

(** ** Package [scenarios]: publishing and unpublishing an iteration *)
Module scenarios.

Inductive sentinel : Set :=
| BadParameterError
| ErrScenarioIterationIsDraft
| ErrScenarioIterationNotValid.

(** Errors: the sentinels, errors of the collaborators, [errors.Wrap] and
    [fmt.Errorf] with [%w]. *)
Inductive error : Type :=
| Sentinel (s : sentinel)
| Opaque (msg : string)
| Wrap (err : error) (msg : string)
| Errorf_w (prefix : string) (wrapped : error).

Definition sentinel_eqb (a b : sentinel) : bool :=
  match a, b with
  | BadParameterError, BadParameterError
  | ErrScenarioIterationIsDraft, ErrScenarioIterationIsDraft
  | ErrScenarioIterationNotValid, ErrScenarioIterationNotValid => true
  | _, _ => false
  end.

Fixpoint errors_Is (err : error) (target : sentinel) : bool :=
  match err with
  | Sentinel s => sentinel_eqb s target
  | Opaque _ => false
  | Wrap err _ => errors_Is err target
  | Errorf_w _ wrapped => errors_Is wrapped target
  end.

(** [models.PublicationAction]: the two actions the switch names, and any
    other value with what its [String()] gives. *)
Inductive PublicationAction : Set :=
| Publish
| Unpublish
| OtherAction (name : string).

(** The fields of [models.Scenario] and [models.ScenarioIteration] that the
    publisher reads; [*string] and [*int] as options. *)
Record Scenario : Set := {
  Scenario_Id : string;
  Scenario_OrganizationId : string;
  LiveVersionID : option string
}.

Record ScenarioIteration : Set := {
  Iteration_Id : string;
  Version : option Z
}.

Record ScenarioAndIteration : Set := {
  Scenario_ : Scenario;
  Iteration : ScenarioIteration
}.

Record CreateScenarioPublicationInput : Set := {
  OrganizationId : string;
  ScenarioIterationId : string;
  ScenarioId : string;
  PublicationAction_ : PublicationAction
}.

Inductive AnalyticsEvent : Set :=
| AnalyticsScenarioIterationPublished.

(** A Go slice: nil, or a list. *)
Definition slice (A : Type) : Type := option (list A).

Definition elements {A : Type} (s : slice A) : list A := default [] s.

(** [append(s, xs...)]: appending nothing to nil gives nil. *)
Definition append {A : Type} (s : slice A) (xs : list A) : slice A :=
  match s, xs with
  | None, [] => None
  | _, _ => Some (elements s ++ xs)
  end.

(** The collaborators of the publisher, over the state [World] they share:
    the two repositories, the validation of an iteration (with
    [ScenarioValidationToError]: the text of the error, if any), the
    generator of primary keys and the tracking of events. *)
Class Collaborators : Type := {
  World : Type;
  ScenarioPublication : Type;
  ScenarioPublication_zero : ScenarioPublication;
  NewPrimaryKey : string → World → string * World;
  CreateScenarioPublication :
    CreateScenarioPublicationInput → string → World → option error * World;
  GetScenarioPublicationById :
    string → World → (ScenarioPublication * option error) * World;
  UpdateScenarioLiveIterationId : string → option string → World → option error * World;
  Validate : ScenarioAndIteration → World → option string * World;
  TrackEvent : AnalyticsEvent → gmap string string → World → World
}.

(** [func (publisher ScenarioPublisher) unpublishOldIteration]. *)
Definition unpublishOldIteration `{Collaborators}
  (organizationId scenarioId : string) (liveVersionId : option string) (w : World)
  : (slice ScenarioPublication * option error) * World :=
  match liveVersionId with
  | None => ((Some [], None), w)
  | Some live =>
      let '(newScenarioPublicationId, w) := NewPrimaryKey organizationId w in
      match CreateScenarioPublication
              {| OrganizationId := organizationId;
                 ScenarioIterationId := live;
                 ScenarioId := scenarioId;
                 PublicationAction_ := Unpublish |}
              newScenarioPublicationId w with
      | (Some err, w) => ((None, Some err), w)
      | (None, w) =>
          match UpdateScenarioLiveIterationId scenarioId None w with
          | (Some err, w) => ((None, Some err), w)
          | (None, w) =>
              let '((scenarioPublication, err), w) :=
                GetScenarioPublicationById newScenarioPublicationId w in
              ((Some [scenarioPublication], err), w)
          end
      end
  end.

(** [func (publisher ScenarioPublisher) publishNewIteration]. *)
Definition publishNewIteration `{Collaborators}
  (organizationId scenarioId scenarioIterationId : string) (w : World)
  : (ScenarioPublication * option error) * World :=
  let '(newScenarioPublicationId, w) := NewPrimaryKey organizationId w in
  match CreateScenarioPublication
          {| OrganizationId := organizationId;
             ScenarioIterationId := scenarioIterationId;
             ScenarioId := scenarioId;
             PublicationAction_ := Publish |}
          newScenarioPublicationId w with
  | (Some err, w) => ((ScenarioPublication_zero, Some err), w)
  | (None, w) =>
      match GetScenarioPublicationById newScenarioPublicationId w with
      | ((_, Some err), w) => ((ScenarioPublication_zero, Some err), w)
      | ((scenarioPublication, None), w) =>
          match UpdateScenarioLiveIterationId scenarioId (Some scenarioIterationId) w with
          | (Some err, w) => ((ScenarioPublication_zero, Some err), w)
          | (None, w) => ((scenarioPublication, None), w)
          end
      end
  end.

(** [func (publisher ScenarioPublisher) PublishOrUnpublishIteration]. *)
Definition PublishOrUnpublishIteration `{Collaborators}
  (scenarioAndIteration : ScenarioAndIteration) (publicationAction : PublicationAction)
  (w : World) : (slice ScenarioPublication * option error) * World :=
  let scenarioPublications : slice ScenarioPublication := None in
  let organizationId := Scenario_OrganizationId (Scenario_ scenarioAndIteration) in
  let scenariosId := Scenario_Id (Scenario_ scenarioAndIteration) in
  let iterationId := Iteration_Id (Iteration scenarioAndIteration) in
  let liveVersionId := LiveVersionID (Scenario_ scenarioAndIteration) in
  match publicationAction with
  | Unpublish =>
      if match liveVersionId with
         | None => true
         | Some live => negb (String.eqb live iterationId)
         end
      then
        ((None,
          Some (Errorf_w ("unable to unpublish: scenario iteration " +:+ iterationId
                          +:+ " is not currently live ")
                  (Sentinel BadParameterError))), w)
      else
        match unpublishOldIteration organizationId scenariosId (Some iterationId) w with
        | ((_, Some err), w) => ((None, Some err), w)
        | ((sps, None), w) => ((append scenarioPublications (elements sps), None), w)
        end
  | Publish =>
      match Version (Iteration scenarioAndIteration) with
      | None =>
          ((None,
            Some (Wrap (Sentinel ErrScenarioIterationIsDraft)
                    "input scenario iteration is a draft in PublishOrUnpublishIteration")),
           w)
      | Some _ =>
          if match liveVersionId with
             | None => false
             | Some live => String.eqb live iterationId
             end
          then ((Some [], None), w)
          else
            match Validate scenarioAndIteration w with
            | (Some msg, w) =>
                ((None,
                  Some (Wrap (Sentinel ErrScenarioIterationNotValid)
                          ("Error validating scenario iteration " +:+ iterationId
                           +:+ ": " +:+ msg))), w)
            | (None, w) =>
                match unpublishOldIteration organizationId scenariosId liveVersionId w with
                | ((_, Some err), w) => ((None, Some err), w)
                | ((sps, None), w) =>
                    let scenarioPublications :=
                      append scenarioPublications (elements sps) in
                    match publishNewIteration organizationId scenariosId iterationId w with
                    | ((_, Some err), w) => ((None, Some err), w)
                    | ((sp, None), w) =>
                        let scenarioPublications := append scenarioPublications [sp] in
                        let w :=
                          TrackEvent AnalyticsScenarioIterationPublished
                            {[ "scenario_iteration_id" := iterationId ]} w in
                        ((scenarioPublications, None), w)
                    end
                end
            end
      end
  | OtherAction name =>
      ((None,
        Some (Wrap (Sentinel BadParameterError)
                ("unknown publication action: " +:+ name))), w)
  end.

(** The iteration is the live one of its scenario. *)
Definition is_live (scenarioAndIteration : ScenarioAndIteration) : bool :=
  match LiveVersionID (Scenario_ scenarioAndIteration) with
  | None => false
  | Some live => String.eqb live (Iteration_Id (Iteration scenarioAndIteration))
  end.

(** The requests refused before any collaborator is called, with the
    sentinel each refusal carries. *)
Definition refused (scenarioAndIteration : ScenarioAndIteration)
  (publicationAction : PublicationAction) : option sentinel :=
  match publicationAction with
  | Unpublish =>
      if is_live scenarioAndIteration then None else Some BadParameterError
  | Publish =>
      match Version (Iteration scenarioAndIteration) with
      | None => Some ErrScenarioIterationIsDraft
      | Some _ => None
      end
  | OtherAction _ => Some BadParameterError
  end.

(** Collaborators for concrete runs: the world is the table of the
    publications with the events tracked; nothing fails but the read of a
    publication that was never created. *)
Definition example_Collaborators : Collaborators := {|
  World := list (string * CreateScenarioPublicationInput) * list string;
  ScenarioPublication := CreateScenarioPublicationInput;
  ScenarioPublication_zero :=
    {| OrganizationId := ""; ScenarioIterationId := ""; ScenarioId := "";
       PublicationAction_ := Publish |};
  NewPrimaryKey := λ organizationId w,
    (organizationId +:+ "-" +:+ pretty (length w.1), w);
  CreateScenarioPublication := λ input id w, (None, ((id, input) :: w.1, w.2));
  GetScenarioPublicationById := λ id w,
    match list_find (λ row, row.1 = id) w.1 with
    | Some (_, row) => ((row.2, None), w)
    | None =>
        (({| OrganizationId := ""; ScenarioIterationId := ""; ScenarioId := "";
             PublicationAction_ := Publish |}, Some (Opaque "no such publication")), w)
    end;
  UpdateScenarioLiveIterationId := λ _ _ w, (None, w);
  Validate := λ _ w, (None, w);
  TrackEvent := λ _ properties w,
    (w.1, default "" (properties !! "scenario_iteration_id") :: w.2)
|}.

Definition example_scenario (live : option string) (version : option Z)
  : ScenarioAndIteration :=
  {| Scenario_ := {| Scenario_Id := "scenario"; Scenario_OrganizationId := "org";
                     LiveVersionID := live |};
     Iteration := {| Iteration_Id := "iteration-2"; Version := version |} |}.

End scenarios.

(** * Facts *)

(** ** Go map indexing *)

Lemma index_map_Some {V : Type} (zero v : V) (m : gmap string V) (k : string) :
  m !! k = Some v → index_map zero m k = v.
Proof. intros H. unfold index_map. by rewrite H. Qed.

Lemma index_map_None {V : Type} (zero : V) (m : gmap string V) (k : string) :
  m !! k = None → index_map zero m k = zero.
Proof. intros H. unfold index_map. by rewrite H. Qed.

(** ** Field-path resolver *)
Section FieldAt_facts.
Import app.

Lemma FieldAt_step dm root p0 p1 rest :
  FieldAt dm root (p0 :: p1 :: rest)
  = FieldAt dm
      (LinkedTableName
         (index_map zero_LinkToSingle
            (LinksToSingle (index_map zero_Table (Tables dm) root)) p0))
      (p1 :: rest).
Proof. reflexivity. Qed.

Lemma unrecognized_hop_step dm root p0 p1 rest :
  unrecognized_hop dm root (p0 :: p1 :: rest)
  = match Tables dm !! root with
    | None => true
    | Some t =>
        match LinksToSingle t !! p0 with
        | None => true
        | Some lk => unrecognized_hop dm (LinkedTableName lk) (p1 :: rest)
        end
    end.
Proof. reflexivity. Qed.

(** On a non-empty path the resolver always returns. *)
Lemma FieldAt_returns dm path :
  path ≠ [] → ∀ root, ∃ f, FieldAt dm root path = Returns f.
Proof.
  induction path as [|p0 [|p1 rest] IH]; intros Hne root.
  - congruence.
  - eexists. reflexivity.
  - rewrite FieldAt_step. apply IH. discriminate.
Qed.

(** From a table name that is not declared, every non-empty path leads to the
    zero field, as long as the empty name is no table either: each hop reads
    the zero link, whose target is the empty name. *)
Lemma FieldAt_unknown_table dm path :
  path ≠ [] → Tables dm !! "" = None →
  ∀ root, Tables dm !! root = None → FieldAt dm root path = Returns zero_Field.
Proof.
  induction path as [|p0 [|p1 rest] IH]; intros Hne Hempty root Hroot.
  - congruence.
  - simpl. by rewrite (index_map_None _ _ _ Hroot).
  - rewrite FieldAt_step, (index_map_None _ _ _ Hroot).
    change (FieldAt dm "" (p1 :: rest) = Returns zero_Field).
    apply IH; [discriminate | assumption | assumption].
Qed.


(** C3, as stated, fails: on the specification's own example the resolver
    meets the unknown link [missing_link] and returns a default field value,
    the zero [Field] of declared type [Bool]; its result type has no error
    component. *)
Lemma FieldAt_missing_link_returns_default :
  unrecognized_hop example_data_model "orders" ["missing_link"; "name"] = true
  ∧ FieldAt example_data_model "orders" ["missing_link"; "name"]
    = Returns {| DataType_ := Bool |}.
Proof. split; vm_compute; reflexivity. Qed.

(** C3, amended: for every data model, root table name and non-empty path,
    [FieldAt] never panics and returns a field; when a table name or an
    intermediate link name along the path is unrecognized (and the empty name
    is not a table), what it returns is the zero field, of declared type
    [Bool]: no error is reported. *)
Theorem FieldAt_unrecognized_hop_returns_zero
  (dm : DataModel) (rootName : string) (path : list string) :
  path ≠ [] →
  (∃ f, FieldAt dm rootName path = Returns f)
  ∧ (unrecognized_hop dm rootName path = true →
     Tables dm !! "" = None →
     FieldAt dm rootName path = Returns zero_Field
     ∧ DataType_ zero_Field = Bool).
Proof.
  intros Hne. split; [by apply FieldAt_returns|].
  intros Hhop Hempty. split; [|reflexivity].
  revert rootName Hhop.
  induction path as [|p0 [|p1 rest] IH]; intros root Hhop.
  - congruence.
  - simpl in Hhop. destruct (Tables dm !! root) as [t|] eqn:Hroot; [discriminate|].
    by apply FieldAt_unknown_table.
  - destruct (Tables dm !! root) as [t|] eqn:Hroot;
      [|by apply FieldAt_unknown_table].
    rewrite FieldAt_step, (index_map_Some _ _ _ _ Hroot).
    rewrite unrecognized_hop_step, Hroot in Hhop.
    destruct (LinksToSingle t !! p0) as [lk|] eqn:Hlk.
    + rewrite (index_map_Some _ _ _ _ Hlk). apply IH; [discriminate | exact Hhop].
    + rewrite (index_map_None _ _ _ Hlk).
      change (FieldAt dm "" (p1 :: rest) = Returns zero_Field).
      by apply FieldAt_unknown_table.
Qed.

Lemma FieldAt_unrecognized_hop_returns_zero_witness :
  (∃ f, FieldAt example_data_model "orders" ["missing_link"; "name"] = Returns f)
  ∧ FieldAt example_data_model "orders" ["missing_link"; "name"] = Returns zero_Field
  ∧ DataType_ zero_Field = Bool.
Proof.
  destruct (FieldAt_unrecognized_hop_returns_zero example_data_model "orders"
              ["missing_link"; "name"]) as [Hreturns Hzero].
  - discriminate.
  - split; [exact Hreturns|].
    apply Hzero; vm_compute; reflexivity.
Defined.

End FieldAt_facts.

(** ** Result tree: [AllErrors] *)
Section AllErrors_facts.
Import ast.

(** Induction on result trees, through both collections of children. *)
Lemma NodeEvaluation_tree_ind (P : NodeEvaluation → Prop) :
  (∀ rv errs children named,
      Forall P children → Forall (λ entry, P entry.2) named →
      P (Build_NodeEvaluation rv errs children named)) →
  ∀ node, P node.
Proof.
  intros step. fix IH 1. intros [rv errs children named].
  apply step.
  - induction children as [|c cs IHcs]; constructor; [apply IH | exact IHcs].
  - induction named as [|[name c] ns IHns]; constructor; [apply IH | exact IHns].
Qed.

Lemma range_Children_listed children :
  Forall (λ c, ∀ errs, addEvaluationErrors c errs (errs ++ AllErrors_listed c))
    children →
  ∀ errs, range_Children children errs (errs ++ flat_map AllErrors_listed children).
Proof.
  induction 1 as [|c cs Hc _ IH]; intros errs; simpl.
  - rewrite app_nil_r. constructor.
  - rewrite app_assoc. econstructor; [apply Hc | apply IH].
Qed.

Lemma range_NamedChildren_listed (named : list (string * NodeEvaluation)) :
  Forall (λ entry, ∀ errs,
            addEvaluationErrors entry.2 errs (errs ++ AllErrors_listed entry.2))
    named →
  ∀ errs, range_NamedChildren named errs
            (errs ++ flat_map (λ entry, AllErrors_listed entry.2) named).
Proof.
  induction 1 as [|[name c] ns Hc _ IH]; intros errs; simpl.
  - rewrite app_nil_r. constructor.
  - rewrite app_assoc. econstructor; [apply Hc | apply IH].
Qed.

(** The listed-order run is a run of the closure, from any starting slice. *)
Lemma addEvaluationErrors_listed node :
  ∀ errs, addEvaluationErrors node errs (errs ++ AllErrors_listed node).
Proof.
  induction node as [rv own children named IHc IHn] using NodeEvaluation_tree_ind.
  intros errs.
  replace (errs ++ AllErrors_listed (Build_NodeEvaluation rv own children named))
    with (((errs ++ own) ++ flat_map AllErrors_listed children)
            ++ flat_map (λ entry, AllErrors_listed entry.2) named)
    by (simpl; by rewrite <- !app_assoc).
  eapply addEvaluationErrors_body with (order := named); simpl.
  - by apply range_Children_listed.
  - reflexivity.
  - by apply range_NamedChildren_listed.
Qed.

(** Every run of the closure appends to the slice it starts with a pre-order
    flattening of the node; the loops append one flattening per child. *)
Lemma addEvaluationErrors_appends_preorder :
  ∀ node errs errs', addEvaluationErrors node errs errs' →
    ∃ flat, preorder node flat ∧ errs' = errs ++ flat.
Proof.
  apply (addEvaluationErrors_mut
    (λ node errs errs' _, ∃ flat, preorder node flat ∧ errs' = errs ++ flat)
    (λ children errs errs' _,
       ∃ flats, Forall2 preorder children flats ∧ errs' = errs ++ concat flats)
    (λ named errs errs' _,
       ∃ flats, Forall2 preorder (snd <$> named) flats
                ∧ errs' = errs ++ concat flats)).
  - intros child errs errs1 errs2 order _ (fc & Hfc & ->) Hperm _ (fn & Hfn & ->).
    exists (Errors child ++ concat fc ++ concat fn). split.
    + by econstructor.
    + by rewrite <- !app_assoc.
  - intros errs. exists []. split; [constructor | by rewrite app_nil_r].
  - intros child rest errs errs1 errs2 _ (flat & Hflat & ->) _ (flats & Hflats & ->).
    exists (flat :: flats). split; [by constructor | by rewrite <- app_assoc].
  - intros errs. exists []. split; [constructor | by rewrite app_nil_r].
  - intros name child rest errs errs1 errs2 _ (flat & Hflat & ->) _ (flats & Hflats & ->).
    exists (flat :: flats). split; [by constructor | by rewrite <- app_assoc].
Qed.

(** C6: [AllErrors] returns, and whatever it returns is the pre-order
    flattening of the tree: the node's own errors first, then the
    flattenings of the positional children from left to right, then those of
    the named children (in the order the map range visits them), and so on
    recursively inside every child. *)
Theorem AllErrors_preorder (root : NodeEvaluation) :
  (∃ errs, AllErrors root errs)
  ∧ (∀ errs, AllErrors root errs → preorder root errs).
Proof.
  split.
  - exists (AllErrors_listed root). apply (addEvaluationErrors_listed root []).
  - intros errs Hrun.
    destruct (addEvaluationErrors_appends_preorder root [] errs Hrun)
      as (flat & Hflat & ->).
    exact Hflat.
Qed.

(** Ranging over the map of named children may visit them in either order:
    both flattenings are results. *)
Example AllErrors_named_either_order (e1 e2 : error) :
  let leaf e := Build_NodeEvaluation ANil [e] [] [] in
  let root := Build_NodeEvaluation ANil [] [] [("a", leaf e1); ("b", leaf e2)] in
  AllErrors root [e1; e2] ∧ AllErrors root [e2; e1].
Proof.
  simpl. split.
  - apply (addEvaluationErrors_listed
             (Build_NodeEvaluation ANil [] []
                [("a", Build_NodeEvaluation ANil [e1] [] []);
                 ("b", Build_NodeEvaluation ANil [e2] [] [])]) []).
  - eapply addEvaluationErrors_body
      with (order := [("b", Build_NodeEvaluation ANil [e2] [] []);
                      ("a", Build_NodeEvaluation ANil [e1] [] [])]).
    + constructor.
    + apply Permutation_swap.
    + econstructor; [|econstructor; [|constructor]].
      * apply (addEvaluationErrors_listed (Build_NodeEvaluation ANil [e2] [] []) []).
      * apply (addEvaluationErrors_listed (Build_NodeEvaluation ANil [e1] [] []) [e2]).
Qed.

End AllErrors_facts.

(** ** Registry and serializer *)
Section operators_facts.
Import json operators.

(** *** The raw operands are parts of the document they are read from *)

Lemma height_pos v : 0 < height v.
Proof. destruct v; simpl; lia. Qed.

Lemma height_member key v members :
  (key, v) ∈ members → height v < height (JObject members).
Proof.
  intros Hin. simpl. apply Nat.lt_succ_r.
  induction members as [|[k w] ms IH]; [by apply elem_of_nil in Hin|].
  apply elem_of_cons in Hin as [Heq|Hin]; simpl.
  - injection Heq as <- <-. lia.
  - specialize (IH Hin). lia.
Qed.

Lemma decode_typeData_Data members : ∀ acc,
  (∀ v, Data acc.1 = Some v → height v < height (JObject members)) →
  ∀ v, Data (fold_left decode_typeData_member members acc).1 = Some v →
       height v < height (JObject members).
Proof.
  assert (Hgen : ∀ ms acc (bound : nat),
    (∀ key v, (key, v) ∈ ms → height v < bound) →
    (∀ v, Data acc.1 = Some v → height v < bound) →
    ∀ v, Data (fold_left decode_typeData_member ms acc).1 = Some v →
         height v < bound).
  { induction ms as [|[key w] ms IH]; intros [op saved] bound Hms Hacc v; simpl.
    - apply Hacc.
    - apply IH.
      + intros k' v' Hin. apply (Hms k'). by right.
      + assert (Hw : height w < bound) by (apply (Hms key); left).
        destruct (selects OperatorType_tag key).
        * destruct w; simpl; try apply Hacc.
        * destruct (selects "data" key); simpl; [|apply Hacc].
          intros v' [= <-]. exact Hw. }
  intros acc Hacc. apply Hgen; [|exact Hacc].
  intros key v. apply height_member.
Qed.

Lemma Unmarshal_typeData_Data v op err :
  Unmarshal_typeData (Some v) = (op, err) → height_raw (Data op) < height v.
Proof.
  destruct v; simpl; try (intros [= <- <-]; simpl; lia).
  intros Hfold.
  destruct (Data op) as [d|] eqn:Hd; simpl; [|lia].
  apply (decode_typeData_Data members ({| Type' := ""; Data := None |}, None)).
  - simpl. discriminate.
  - by rewrite Hfold.
Qed.

Lemma decode_leftRight_operands members : ∀ acc (bound : nat),
  (∀ key v, (key, v) ∈ members → height v < bound) →
  height_raw (LeftOp acc) < bound → height_raw (RightOp acc) < bound →
  height_raw (LeftOp (fold_left decode_leftRight_member members acc)) < bound
  ∧ height_raw (RightOp (fold_left decode_leftRight_member members acc)) < bound.
Proof.
  induction members as [|[key w] ms IH]; intros acc bound Hms Hl Hr; simpl.
  - by split.
  - assert (Hw : height w < bound) by (apply (Hms key); left).
    assert (Hms' : ∀ k v, (k, v) ∈ ms → height v < bound)
      by (intros k v Hin; apply (Hms k); by right).
    destruct (selects "left" key); [by apply IH|].
    destruct (selects "right" key); by apply IH.
Qed.

Lemma Unmarshal_leftRight_operands b eqData err :
  Unmarshal_leftRight b = (eqData, err) →
  height_raw (LeftOp eqData) < height b ∧ height_raw (RightOp eqData) < height b.
Proof.
  destruct b; simpl; try (intros [= <- <-]; simpl; lia).
  intros [= <- <-].
  apply decode_leftRight_operands; simpl; try lia.
  intros key v. apply height_member.
Qed.

(** *** Fuel *)

Lemma EqBool_UnmarshalJSON_ext (f g : RawMessage → run decoded) b :
  (∀ raw, height_raw raw < height b → f raw = g raw) →
  EqBool_UnmarshalJSON f b = EqBool_UnmarshalJSON g b.
Proof.
  intros Hfg. unfold EqBool_UnmarshalJSON.
  destruct (Unmarshal_leftRight b) as [eqData [err|]] eqn:Hb; [reflexivity|].
  destruct (Unmarshal_leftRight_operands _ _ _ Hb) as [Hl Hr].
  by rewrite (Hfg _ Hl), (Hfg _ Hr).
Qed.

Lemma Unmarshal_operator_ext (f g : RawMessage → run decoded) data op :
  (∀ raw, height_raw raw < height_raw data → f raw = g raw) →
  Unmarshal_operator f data op = Unmarshal_operator g data op.
Proof.
  intros Hfg. destruct data as [b|]; [|reflexivity].
  destruct op; simpl; try reflexivity.
  by apply EqBool_UnmarshalJSON_ext.
Qed.

(** Above the height of the document the amount of fuel does not matter. *)
Lemma unmarshalOperatorBool_fuel_stable reg : ∀ n m raw,
  height_raw raw < n → height_raw raw < m →
  unmarshalOperatorBool_fuel n reg raw = unmarshalOperatorBool_fuel m reg raw.
Proof.
  induction n as [|n IH]; intros m raw Hn Hm; [lia|].
  destruct m as [|m]; [lia|]. simpl.
  destruct (Unmarshal_typeData raw) as [_op [err|]] eqn:Hraw; [reflexivity|].
  destruct (reg !! Type' _op) as [opFunc|]; [|reflexivity].
  destruct (castOperatorBool opFunc) as [op|]; [|reflexivity].
  rewrite (Unmarshal_operator_ext
             (unmarshalOperatorBool_fuel n reg) (unmarshalOperatorBool_fuel m reg));
    [reflexivity|].
  intros raw' Hraw'. destruct raw as [v|].
  - pose proof (Unmarshal_typeData_Data _ _ _ Hraw). simpl in Hn, Hm.
    apply IH; lia.
  - simpl in Hraw. discriminate.
Qed.

(** The equation of [unmarshalOperatorBool]: the body of the Go function,
    calling itself on the operands. *)
Lemma unmarshalOperatorBool_eq reg raw :
  unmarshalOperatorBool reg raw =
  match Unmarshal_typeData raw with
  | (_, Some err) =>
      Done (Failed (Errorf_w
        "unable to unmarshal operator to intermediate type/data representation: "
        err))
  | (_op, None) =>
      match reg !! Type' _op with
      | None => Done (Failed (Errorf ("operator " +:+ Type' _op +:+ " not registered")))
      | Some opFunc =>
          match castOperatorBool opFunc with
          | None =>
              Done (Failed (Errorf
                ("operator " +:+ Type' _op +:+ " could not be cast to OperatorBool")))
          | Some op =>
              match Unmarshal_operator (unmarshalOperatorBool reg) (Data _op) op with
              | OutOfFuel => OutOfFuel
              | Done (Failed err) =>
                  Done (Failed (Errorf_w
                    ("operator " +:+ Type' _op +:+ " could not be unmarshalled: ") err))
              | Done (Decoded op') => Done (Decoded op')
              end
          end
      end
  end.
Proof.
  unfold unmarshalOperatorBool at 1. simpl.
  destruct (Unmarshal_typeData raw) as [_op [err|]] eqn:Hraw; [reflexivity|].
  destruct (reg !! Type' _op) as [opFunc|]; [|reflexivity].
  destruct (castOperatorBool opFunc) as [op|]; [|reflexivity].
  rewrite (Unmarshal_operator_ext
             (unmarshalOperatorBool_fuel (height_raw raw) reg)
             (unmarshalOperatorBool reg)); [reflexivity|].
  intros raw' Hraw'. unfold unmarshalOperatorBool.
  destruct raw as [v|]; [|simpl in Hraw; discriminate].
  pose proof (Unmarshal_typeData_Data _ _ _ Hraw).
  apply unmarshalOperatorBool_fuel_stable; simpl height_raw in *; lia.
Qed.


(** *** Decoding one envelope *)

Lemma Unmarshal_typeData_envelope type data :
  Unmarshal_typeData (Some (envelope type data))
  = ({| Type' := type; Data := Some data |}, None).
Proof. reflexivity. Qed.

Lemma Unmarshal_leftRight_operands_object l r :
  Unmarshal_leftRight (JObject [("left", l); ("right", r)])
  = ({| LeftOp := Some l; RightOp := Some r |}, None).
Proof. reflexivity. Qed.


(** An [EQBOOL] node, in terms of the decoding of its two operand slots. *)
Lemma unmarshalOperatorBool_EQBOOL reg l r :
  reg !! "EQBOOL" = Some NewEqBool →
  unmarshalOperatorBool reg
    (Some (envelope "EQBOOL" (JObject [("left", l); ("right", r)])))
  = match unmarshalOperatorBool reg (Some l) with
    | OutOfFuel => OutOfFuel
    | Done (Failed err) =>
        Done (Failed (Errorf_w "operator EQBOOL could not be unmarshalled: "
                        (Errorf_w "unable to instantiate Left operator: " err)))
    | Done (Decoded leftOp) =>
        match unmarshalOperatorBool reg (Some r) with
        | OutOfFuel => OutOfFuel
        | Done (Failed err) =>
            Done (Failed (Errorf_w "operator EQBOOL could not be unmarshalled: "
                            (Errorf_w "unable to instantiate Right operator: " err)))
        | Done (Decoded rightOp) => Done (Decoded (EqBool leftOp rightOp))
        end
    end.
Proof.
  intros Hreg.
  rewrite unmarshalOperatorBool_eq at 1.
  rewrite Unmarshal_typeData_envelope. cbn [Type' Data]. rewrite Hreg.
  cbn [castOperatorBool Unmarshal_operator].
  unfold EqBool_UnmarshalJSON. rewrite Unmarshal_leftRight_operands_object.
  cbn [LeftOp RightOp].
  destruct (unmarshalOperatorBool reg (Some l)) as [[errL|leftOp]|]; try reflexivity.
  destruct (unmarshalOperatorBool reg (Some r)) as [[errR|rightOp]|]; reflexivity.
Qed.

Lemma unmarshalOperatorBool_TRUE reg data :
  reg !! "TRUE" = Some NewTrue →
  unmarshalOperatorBool reg (Some (envelope "TRUE" data)) = Done (Decoded True_).
Proof.
  intros Hreg. rewrite unmarshalOperatorBool_eq, Unmarshal_typeData_envelope.
  cbn [Type' Data]. by rewrite Hreg.
Qed.

Lemma unmarshalOperatorBool_FALSE reg data :
  reg !! "FALSE" = Some NewFalse →
  unmarshalOperatorBool reg (Some (envelope "FALSE" data)) = Done (Decoded False_).
Proof.
  intros Hreg. rewrite unmarshalOperatorBool_eq, Unmarshal_typeData_envelope.
  cbn [Type' Data]. by rewrite Hreg.
Qed.

(** C5: round trip.  In a registry that holds the three registrations of the
    file, decoding the encoding of a node of any of the three variants gives
    the node back: same variant, same operand trees. *)
Theorem unmarshal_marshal_roundtrip (reg : Registry) (node : OperatorBool) :
  reg !! "TRUE" = Some NewTrue →
  reg !! "FALSE" = Some NewFalse →
  reg !! "EQBOOL" = Some NewEqBool →
  unmarshalOperatorBool reg (Some (MarshalJSON node)) = Done (Decoded node).
Proof.
  intros HT HF HE.
  induction node as [| |l IHl r IHr]; simpl.
  - by apply unmarshalOperatorBool_TRUE.
  - by apply unmarshalOperatorBool_FALSE.
  - rewrite unmarshalOperatorBool_EQBOOL by exact HE. by rewrite IHl, IHr.
Qed.

Lemma unmarshal_marshal_roundtrip_witness :
  unmarshalOperatorBool operatorFromType
    (Some (MarshalJSON (EqBool True_ (EqBool False_ True_))))
  = Done (Decoded (EqBool True_ (EqBool False_ True_))).
Proof.
  apply (unmarshal_marshal_roundtrip operatorFromType
           (EqBool True_ (EqBool False_ True_))); vm_compute; reflexivity.
Defined.






(** C10: registration is not enough in a boolean position.  When the
    envelope names a registered discriminator whose constructor does not
    build an [OperatorBool], the decode fails with the cast error naming
    that discriminator; met in an operand slot of an [EQBOOL] node, the
    failure reaches the root with that error as its cause. *)
Theorem unmarshal_not_bool_fails
  (reg : Registry) (raw : RawMessage) (_op : typeData) (goType : string) :
  Unmarshal_typeData raw = (_op, None) →
  reg !! Type' _op = Some (NotBool goType) →
  unmarshalOperatorBool reg raw
  = Done (Failed (Errorf
      ("operator " +:+ Type' _op +:+ " could not be cast to OperatorBool")))
  ∧ ∀ v other, raw = Some v → reg !! "EQBOOL" = Some NewEqBool →
      ∃ err,
        unmarshalOperatorBool reg
          (Some (envelope "EQBOOL" (JObject [("left", v); ("right", other)])))
        = Done (Failed err)
        ∧ cause err
          = Errorf ("operator " +:+ Type' _op +:+ " could not be cast to OperatorBool").
Proof.
  intros Hraw Hreg.
  assert (Hcast : unmarshalOperatorBool reg raw
    = Done (Failed (Errorf
        ("operator " +:+ Type' _op +:+ " could not be cast to OperatorBool")))).
  { by rewrite unmarshalOperatorBool_eq, Hraw, Hreg. }
  split; [exact Hcast|].
  intros v other -> HE. eexists.
  rewrite unmarshalOperatorBool_EQBOOL by exact HE. rewrite Hcast.
  split; reflexivity.
Qed.

Lemma unmarshal_not_bool_fails_witness :
  unmarshalOperatorBool example_registry (Some (envelope "SCALAR" (JNumber "1")))
  = Done (Failed (Errorf "operator SCALAR could not be cast to OperatorBool"))
  ∧ ∃ err,
      unmarshalOperatorBool example_registry
        (Some (envelope "EQBOOL"
                 (JObject [("left", envelope "SCALAR" (JNumber "1"));
                           ("right", MarshalJSON True_)])))
      = Done (Failed err)
      ∧ cause err = Errorf "operator SCALAR could not be cast to OperatorBool".
Proof.
  destruct (unmarshal_not_bool_fails example_registry
              (Some (envelope "SCALAR" (JNumber "1")))
              {| Type' := "SCALAR"; Data := Some (JNumber "1") |} "*Scalar")
    as [Hdirect Hslot].
  - reflexivity.
  - vm_compute; reflexivity.
  - split; [exact Hdirect|].
    apply (Hslot (envelope "SCALAR" (JNumber "1")) (MarshalJSON True_)).
    + reflexivity.
    + vm_compute; reflexivity.
Defined.

End operators_facts.

(** ** [Equal] *)
Section Equal_facts.
Import ast evaluate.

Ltac rung adapter l r :=
  destruct (adapter l) as [? [?|]]; destruct (adapter r) as [? [?|]];
  cbn; try reflexivity.

(** The evaluator is the ladder of the specification, over any
    implementation of the coercions. *)
Lemma Equal_Evaluate_ladder `{Coercions} (l r : any) (named : gmap string any) :
  Equal_Evaluate {| Args := [l; r]; NamedArgs := named |}
  = match first_shared_representation l r with
    | Some rep => (ABool (typed_equality rep l r), [])
    | None =>
        (ANil,
         [Wrap ErrArgumentInvalidType
            "all arguments to Equal Evaluate must be string, boolean, time, int or float"])
    end.
Proof.
  unfold Equal_Evaluate, first_shared_representation, ladder, typed_equality,
    coerces_into, coerces, adaptLeftAndRight, MakeEvaluateResult, MakeEvaluateError.
  cbn [leftAndRight Args find].
  rung adaptArgumentToString l r;
  rung adaptArgumentToBool l r;
  rung promoteArgumentToInt64 l r;
  rung promoteArgumentToFloat64 l r;
  rung adaptArgumentToTime l r.
Qed.

(** The examples of the specification, on the coercions modelled from it. *)
Example Equal_within_tolerance :
  @Equal_Evaluate spec_Coercions
    {| Args := [AFloat64 1.00000000; AFloat64 1.000000005]; NamedArgs := ∅ |}
  = (ABool true, []).
Proof. vm_compute. reflexivity. Qed.

Example Equal_outside_tolerance :
  @Equal_Evaluate spec_Coercions
    {| Args := [AFloat64 1.0; AFloat64 1.0001]; NamedArgs := ∅ |}
  = (ABool false, []).
Proof. vm_compute. reflexivity. Qed.

Example Equal_no_shared_representation :
  @Equal_Evaluate spec_Coercions
    {| Args := [AString "a"; ABool true]; NamedArgs := ∅ |}
  = (ANil,
     [Wrap ErrArgumentInvalidType
        "all arguments to Equal Evaluate must be string, boolean, time, int or float"]).
Proof. vm_compute. reflexivity. Qed.

(** C1: for every pair of operands and every implementation of the
    coercions, [Equal.Evaluate] returns the equality of the first
    representation of the ladder string, boolean, integer, float (absolute
    tolerance 1e-8), timestamp into which both operands coerce, and no value
    with an [ArgumentInvalidType] error when there is none.  The integer
    rung comes before the float rung: with the coercions modelled from the
    specification, [Equal(3, 3.0)] is decided by the integer rung and is
    true. *)
Theorem Equal_priority_ladder :
  (∀ (C : Coercions) (l r : any) (named : gmap string any),
      ∃ err,
        errors_Is err ArgumentInvalidType = true
        ∧ Equal_Evaluate {| Args := [l; r]; NamedArgs := named |}
          = match first_shared_representation l r with
            | Some rep => (ABool (typed_equality rep l r), [])
            | None => (ANil, [err])
            end)
  ∧ ladder = [AsString; AsBool; AsInt64; AsFloat64; AsTime]
  ∧ (∀ (C : Coercions) (l r : any),
      typed_equality AsInt64 l r
      = Z.eqb (promoteArgumentToInt64 l).1 (promoteArgumentToInt64 r).1
      ∧ typed_equality AsFloat64 l r
        = PrimFloat.ltb
            (PrimFloat.abs
               (PrimFloat.sub (promoteArgumentToFloat64 l).1
                  (promoteArgumentToFloat64 r).1))
            1e-8%float)
  ∧ @first_shared_representation spec_Coercions (AInt64 3) (AFloat64 3.0)
    = Some AsInt64
  ∧ @Equal_Evaluate spec_Coercions
      {| Args := [AInt64 3; AFloat64 3.0]; NamedArgs := ∅ |}
    = (ABool true, []).
Proof.
  split; [|split; [reflexivity|split; [|split]]].
  - intros C l r named. eexists. split; [|apply Equal_Evaluate_ladder]. reflexivity.
  - intros C l r. split; reflexivity.
  - vm_compute. reflexivity.
  - vm_compute. reflexivity.
Qed.

End Equal_facts.

(** ** [Filter] *)
Section Filter_facts.
Import ast evaluate.
Context `{C : Coercions} `{FO : FilterOperators}.

Lemma validTypeForFilterOperators_entry operator validTypes :
  (operator, validTypes) ∈ validTypeForFilterOperators_entries →
  validTypeForFilterOperators !! operator = Some validTypes.
Proof.
  apply elem_of_list_to_map_1. exact FILTER_distinct.
Qed.

Lemma validTypeForFilterOperators_GREATER :
  validTypeForFilterOperators !! FILTER_GREATER
  = Some [models.Int; models.Float; models.String; models.Timestamp].
Proof.
  apply validTypeForFilterOperators_entry.
  unfold validTypeForFilterOperators_entries. set_solver.
Qed.

Lemma getFieldType_declares dataModel tableName fieldName dataType :
  declares dataModel tableName fieldName dataType →
  getFieldType dataModel tableName fieldName = (dataType, None).
Proof.
  intros (table & Htable & Hfield). unfold getFieldType.
  by rewrite Htable, Hfield.
Qed.

(** What [getFieldType] reports for a name that does not resolve is not
    attributed to a named argument. *)
Lemma getFieldType_error dataModel tableName fieldName dataType err name :
  getFieldType dataModel tableName fieldName = (dataType, Some err) →
  names_argument err name = false.
Proof.
  unfold getFieldType.
  destruct (models.Tables dataModel !! tableName) as [table|];
    [destruct (models.Fields table !! fieldName)|];
    intros [= <- <-]; reflexivity.
Qed.

(** A pair of names that resolves to no declared field is rejected. *)
Lemma getFieldType_undeclared dataModel tableName fieldName :
  (∀ dataType, ¬ declares dataModel tableName fieldName dataType) →
  ∃ zero notFound,
    getFieldType dataModel tableName fieldName = (zero, Some notFound).
Proof.
  intros Hnone. unfold getFieldType.
  destruct (models.Tables dataModel !! tableName) as [table|] eqn:Htable;
    [|by eexists _, _].
  destruct (models.Fields table !! fieldName) as [[dataType]|] eqn:Hfield;
    [|by eexists _, _].
  destruct (Hnone dataType). by exists table.
Qed.

Lemma AdaptNamedArgument_string arguments name s :
  named_string arguments name s →
  AdaptNamedArgument "" (NamedArgs arguments) name adaptArgumentToString = (s, None).
Proof.
  intros (v & Hv & Hs). unfold AdaptNamedArgument. by rewrite Hv, Hs.
Qed.

(** Once the three string arguments are read, [Evaluate] goes on with the
    field type. *)
Lemma FilterEvaluator_Evaluate_strings f arguments tableName fieldName operator :
  named_string arguments "tableName" tableName →
  named_string arguments "fieldName" fieldName →
  named_string arguments "operator" operator →
  FilterEvaluator_Evaluate f arguments
  = match getFieldType (DataModel f) tableName fieldName with
    | (_, Some err) =>
        MakeEvaluateError (Join [
          Wrap err ("field type for " +:+ tableName +:+ "." +:+ fieldName
                    +:+ " not found in data model in Evaluate filter");
          NewNamedArgumentError "fieldName"])
    | (fieldType, None) =>
        match validTypeForFilterOperators !! operator with
        | None =>
            MakeEvaluateError (Join [
              Wrap ErrRuntimeExpression
                ("operator " +:+ operator +:+ " is not valid in Evaluate filter");
              NewNamedArgumentError "operator"])
        | Some validTypes =>
            if negb (slices_Contains validTypes fieldType) then
              MakeEvaluateError (Join [
                Wrap ErrArgumentInvalidType
                  ("field type " +:+ models.DataType_String fieldType
                   +:+ " is not valid for operator " +:+ operator
                   +:+ " in Evaluate filter");
                NewNamedArgumentError "fieldName"])
            else
              let value := index_map ANil (NamedArgs arguments) "value" in
              if is_nil value then
                (AFilter (Build_Filter tableName fieldName operator ANil), [])
              else
                match promoteValue operator fieldType value with
                | (_, Some err) =>
                    MakeEvaluateError (Join [
                      Wrap ErrArgumentInvalidType
                        ("value is not compatible with selected field "
                         +:+ tableName +:+ "." +:+ fieldName
                         +:+ " in Evaluate filter");
                      NewNamedArgumentError "value";
                      err])
                | (promotedValue, None) =>
                    (AFilter (Build_Filter tableName fieldName operator promotedValue),
                     [])
                end
        end
    end.
Proof.
  intros Ht Hf Ho. unfold FilterEvaluator_Evaluate.
  rewrite (AdaptNamedArgument_string _ _ _ Ht), (AdaptNamedArgument_string _ _ _ Hf),
    (AdaptNamedArgument_string _ _ _ Ho).
  reflexivity.
Qed.

(** Past the validation of the operator against the declared type, an
    absent [value] ends the evaluation with the descriptor. *)
Lemma FilterEvaluator_Evaluate_no_value
  (f : FilterEvaluator) (arguments : Arguments)
  (tableName fieldName : string) (operator : FilterOperator)
  (fieldType : models.DataType) (validTypes : list models.DataType) :
  named_string arguments "tableName" tableName →
  named_string arguments "fieldName" fieldName →
  named_string arguments "operator" operator →
  declares (DataModel f) tableName fieldName fieldType →
  validTypeForFilterOperators !! operator = Some validTypes →
  fieldType ∈ validTypes →
  NamedArgs arguments !! "value" = None →
  FilterEvaluator_Evaluate f arguments
  = (AFilter (Build_Filter tableName fieldName operator ANil), []).
Proof.
  intros Ht Hf Ho Hdecl Hvalid Hin Hvalue.
  rewrite (FilterEvaluator_Evaluate_strings _ _ _ _ _ Ht Hf Ho).
  rewrite (getFieldType_declares _ _ _ _ Hdecl), Hvalid.
  unfold slices_Contains. rewrite bool_decide_eq_true_2 by exact Hin.
  cbn [negb]. by rewrite (index_map_None _ _ _ Hvalue).
Qed.

(** C7: when the table name, the field name and the operator are valid (the
    three arguments are strings, the field resolves in the data model and
    its declared type is allowed for the operator) and the named argument
    [value] is absent, [Evaluate] succeeds with no error and returns the
    descriptor of that table, field and operator with a nil [Value]. *)
Theorem Filter_without_value
  (f : FilterEvaluator) (arguments : Arguments)
  (tableName fieldName : string) (operator : FilterOperator)
  (fieldType : models.DataType) (validTypes : list models.DataType) :
  named_string arguments "tableName" tableName →
  named_string arguments "fieldName" fieldName →
  named_string arguments "operator" operator →
  declares (DataModel f) tableName fieldName fieldType →
  validTypeForFilterOperators !! operator = Some validTypes →
  fieldType ∈ validTypes →
  NamedArgs arguments !! "value" = None →
  ∃ filter,
    FilterEvaluator_Evaluate f arguments = (AFilter filter, [])
    ∧ TableName filter = tableName
    ∧ FieldName filter = fieldName
    ∧ Operator filter = operator
    ∧ Value filter = ANil.
Proof.
  intros Ht Hf Ho Hdecl Hvalid Hin Hvalue.
  exists (Build_Filter tableName fieldName operator ANil).
  split; [|by repeat split].
  by apply (FilterEvaluator_Evaluate_no_value f arguments tableName fieldName operator
              fieldType validTypes).
Qed.

(** C9, amended: when the three arguments [tableName], [fieldName] and
    [operator] are strings and the table and field names do not resolve to a
    declared field, [Evaluate] returns the field-not-found error, attributed
    to [fieldName] and not to [operator], whatever the operator is, member
    of the enumeration or not: the field is resolved before the operator is
    looked up. *)
Theorem Filter_field_resolved_before_operator
  (f : FilterEvaluator) (arguments : Arguments)
  (tableName fieldName : string) (operator : FilterOperator) :
  named_string arguments "tableName" tableName →
  named_string arguments "fieldName" fieldName →
  named_string arguments "operator" operator →
  (∀ dataType, ¬ declares (DataModel f) tableName fieldName dataType) →
  ∃ notFound err,
    FilterEvaluator_Evaluate f arguments = (ANil, [err])
    ∧ (getFieldType (DataModel f) tableName fieldName).2 = Some notFound
    ∧ err = Join [
        Wrap notFound ("field type for " +:+ tableName +:+ "." +:+ fieldName
                       +:+ " not found in data model in Evaluate filter");
        NewNamedArgumentError "fieldName"]
    ∧ names_argument err "fieldName" = true
    ∧ names_argument err "operator" = false.
Proof.
  intros Ht Hf Ho Hnone.
  destruct (getFieldType_undeclared _ _ _ Hnone) as (zero & notFound & Hfield).
  exists notFound. eexists.
  rewrite (FilterEvaluator_Evaluate_strings _ _ _ _ _ Ht Hf Ho), Hfield.
  split; [reflexivity|]. split; [reflexivity|]. split; [reflexivity|].
  cbn. rewrite !(getFieldType_error _ _ _ _ _ _ Hfield). by split.
Qed.

(** C4, amended: with [tableName = "orders"], [fieldName = "status"] and
    [operator = greater], what [Evaluate] does depends on the declared type
    of [orders.status].  Declared boolean, it fails with an
    [ArgumentInvalidType] error attributed to [fieldName]: the ordering
    operators are not permitted on boolean fields.  Declared string (or
    integer, float, timestamp), the operator is permitted, and without a
    comparison value [Evaluate] returns the descriptor and no error. *)
Theorem Filter_greater_by_declared_type
  (f : FilterEvaluator) (arguments : Arguments) (fieldType : models.DataType) :
  named_string arguments "tableName" "orders" →
  named_string arguments "fieldName" "status" →
  named_string arguments "operator" FILTER_GREATER →
  declares (DataModel f) "orders" "status" fieldType →
  (fieldType = models.Bool →
     ∃ err, FilterEvaluator_Evaluate f arguments = (ANil, [err])
            ∧ errors_Is err ArgumentInvalidType = true
            ∧ names_argument err "fieldName" = true)
  ∧ (fieldType ≠ models.Bool →
     NamedArgs arguments !! "value" = None →
     FilterEvaluator_Evaluate f arguments
     = (AFilter (Build_Filter "orders" "status" FILTER_GREATER ANil), [])).
Proof.
  intros Ht Hf Ho Hdecl. split.
  - intros ->. eexists.
    rewrite (FilterEvaluator_Evaluate_strings _ _ _ _ _ Ht Hf Ho).
    rewrite (getFieldType_declares _ _ _ _ Hdecl), validTypeForFilterOperators_GREATER.
    split; [reflexivity|]. by split.
  - intros Hnot Hvalue.
    apply (FilterEvaluator_Evaluate_no_value f arguments "orders" "status"
             FILTER_GREATER fieldType
             [models.Int; models.Float; models.String; models.Timestamp]);
      try assumption.
    + apply validTypeForFilterOperators_GREATER.
    + destruct fieldType; [done | set_solver..].
Qed.

End Filter_facts.

(** *** Concrete runs of [Filter] *)
Section Filter_runs.
Import ast evaluate.

Lemma example_filter_named fieldName operator :
  @named_string spec_Coercions (example_filter fieldName (AString operator))
    "tableName" "orders"
  ∧ @named_string spec_Coercions (example_filter fieldName (AString operator))
      "fieldName" fieldName
  ∧ @named_string spec_Coercions (example_filter fieldName (AString operator))
      "operator" operator.
Proof.
  unfold named_string, example_filter. cbn [NamedArgs].
  split; [exists (AString "orders")
         | split; [exists (AString fieldName) | exists (AString operator)]];
    (split; [by simplify_map_eq | reflexivity]).
Qed.

Lemma Filter_without_value_witness :
  ∃ filter,
    @FilterEvaluator_Evaluate spec_Coercions spec_FilterOperators
      {| DataModel := example_data_model |}
      (example_filter "amount" (AString "lesser"))
    = (AFilter filter, [])
    ∧ TableName filter = "orders"
    ∧ FieldName filter = "amount"
    ∧ Operator filter = "lesser"
    ∧ Value filter = ANil.
Proof.
  destruct (example_filter_named "amount" "lesser") as (Ht & Hf & Ho).
  apply (@Filter_without_value spec_Coercions spec_FilterOperators
           {| DataModel := example_data_model |}
           (example_filter "amount" (AString "lesser"))
           "orders" "amount" "lesser" models.Float
           [models.Int; models.Float; models.String; models.Timestamp]).
  - exact Ht.
  - exact Hf.
  - exact Ho.
  - eexists. split; reflexivity.
  - vm_compute. reflexivity.
  - set_solver.
  - vm_compute. reflexivity.
Defined.

(** C9, as stated, fails: the table and field arguments are strings that do
    not resolve ([orders.nope]), yet when the operator argument is not a
    string (here a boolean, which is no member of the enumeration either)
    or is missing, [Evaluate] returns before it looks at the data model, and
    the only error reported is about [operator]. *)
Lemma Filter_operator_error_before_field :
  (getFieldType example_data_model "orders" "nope").2
  = Some (Wrap ErrRuntimeExpression "unknown field orders.nope")
  ∧ @FilterEvaluator_Evaluate spec_Coercions spec_FilterOperators
      {| DataModel := example_data_model |} (example_filter "nope" (ABool true))
    = (ANil, [Join [Wrap ErrArgumentInvalidType "argument is not a string";
                    NewNamedArgumentError "operator"]])
  ∧ @FilterEvaluator_Evaluate spec_Coercions spec_FilterOperators
      {| DataModel := example_data_model |}
      {| Args := [];
         NamedArgs := {[ "tableName" := AString "orders";
                         "fieldName" := AString "nope" ]} |}
    = (ANil, [Join [Wrap (Sentinel ArgumentMissing) "missing named argument operator";
                    NewNamedArgumentError "operator"]]).
Proof. repeat split; vm_compute; reflexivity. Qed.

Lemma Filter_field_resolved_before_operator_witness :
  ∃ notFound err,
    @FilterEvaluator_Evaluate spec_Coercions spec_FilterOperators
      {| DataModel := example_data_model |} (example_filter "nope" (AString "bogus"))
    = (ANil, [err])
    ∧ (getFieldType example_data_model "orders" "nope").2 = Some notFound
    ∧ err = Join [
        Wrap notFound ("field type for " +:+ "orders" +:+ "." +:+ "nope"
                       +:+ " not found in data model in Evaluate filter");
        NewNamedArgumentError "fieldName"]
    ∧ names_argument err "fieldName" = true
    ∧ names_argument err "operator" = false.
Proof.
  destruct (example_filter_named "nope" "bogus") as (Ht & Hf & Ho).
  apply (@Filter_field_resolved_before_operator spec_Coercions spec_FilterOperators
           {| DataModel := example_data_model |}
           (example_filter "nope" (AString "bogus")) "orders" "nope" "bogus").
  - exact Ht.
  - exact Hf.
  - exact Ho.
  - intros dataType (table & Htable & Hfield).
    vm_compute in Htable. injection Htable as <-.
    vm_compute in Hfield. discriminate.
Defined.

(** C4, as stated, fails: [orders.status] is declared string, and
    [Filter(orders, status, greater)] is accepted; the descriptor comes back
    with no error. *)
Lemma Filter_greater_on_string_succeeds :
  declares example_data_model "orders" "status" models.String
  ∧ @FilterEvaluator_Evaluate spec_Coercions spec_FilterOperators
      {| DataModel := example_data_model |} (example_filter "status" (AString "greater"))
    = (AFilter (Build_Filter "orders" "status" "greater" ANil), []).
Proof.
  split; [eexists; split; reflexivity | vm_compute; reflexivity].
Qed.

Lemma Filter_greater_by_declared_type_witness :
  @FilterEvaluator_Evaluate spec_Coercions spec_FilterOperators
    {| DataModel := example_data_model |}
    (example_filter "status" (AString "greater"))
  = (AFilter (Build_Filter "orders" "status" "greater" ANil), []).
Proof.
  destruct (example_filter_named "status" "greater") as (Ht & Hf & Ho).
  destruct (@Filter_greater_by_declared_type spec_Coercions spec_FilterOperators
              {| DataModel := example_data_model |}
              (example_filter "status" (AString "greater")) models.String)
    as [_ Hstring].
  - exact Ht.
  - exact Hf.
  - exact Ho.
  - eexists. split; reflexivity.
  - apply Hstring; [discriminate | vm_compute; reflexivity].
Defined.

End Filter_runs.

(** ** More on the serializer *)
Section serializer_facts.
Import json operators.

(** X1: distinct operator trees have distinct encodings. *)
Theorem MarshalJSON_injective (a b : OperatorBool) :
  MarshalJSON a = MarshalJSON b → a = b.
Proof.
  revert b. induction a as [| |l IHl r IHr]; intros [| |l' r']; simpl;
    unfold envelope; intros Heq; try reflexivity; try discriminate Heq.
  injection Heq as Hl Hr. by rewrite (IHl _ Hl), (IHr _ Hr).
Qed.

Lemma MarshalJSON_injective_witness :
  EqBool True_ False_ = EqBool True_ False_.
Proof.
  apply (MarshalJSON_injective (EqBool True_ False_) (EqBool True_ False_)).
  reflexivity.
Defined.

(** X2: [EqBool.UnmarshalJSON] decodes the left operand first and stops at
    its failure: the error of the left operand is the one reported, whatever
    the right operand is, and the error of the right operand is reported
    only when the left operand has decoded. *)
Theorem EqBool_left_error_first
  (reg : Registry) (l r : Value) (errL : error) :
  reg !! "EQBOOL" = Some NewEqBool →
  unmarshalOperatorBool reg (Some l) = Done (Failed errL) →
  unmarshalOperatorBool reg
    (Some (envelope "EQBOOL" (JObject [("left", l); ("right", r)])))
  = Done (Failed (Errorf_w "operator EQBOOL could not be unmarshalled: "
                    (Errorf_w "unable to instantiate Left operator: " errL)))
  ∧ ∀ errR, unmarshalOperatorBool reg (Some r) = Done (Failed errR) →
      unmarshalOperatorBool reg
        (Some (envelope "EQBOOL" (JObject [("left", r); ("right", l)])))
      = Done (Failed (Errorf_w "operator EQBOOL could not be unmarshalled: "
                        (Errorf_w "unable to instantiate Left operator: " errR))).
Proof.
  intros HE HL. split.
  - rewrite unmarshalOperatorBool_EQBOOL by exact HE. by rewrite HL.
  - intros errR HR. rewrite unmarshalOperatorBool_EQBOOL by exact HE. by rewrite HR.
Qed.

Lemma EqBool_left_error_first_witness :
  unmarshalOperatorBool operatorFromType
    (Some (envelope "EQBOOL"
             (JObject [("left", envelope "A" JNull); ("right", envelope "B" JNull)])))
  = Done (Failed (Errorf_w "operator EQBOOL could not be unmarshalled: "
                    (Errorf_w "unable to instantiate Left operator: "
                       (Errorf "operator A not registered")))).
Proof.
  destruct (EqBool_left_error_first operatorFromType
              (envelope "A" JNull) (envelope "B" JNull)
              (Errorf "operator A not registered")) as [Hleft _].
  - vm_compute; reflexivity.
  - vm_compute; reflexivity.
  - exact Hleft.
Defined.

(** The raw [data] kept by the intermediate representation comes from a
    member of the object whose key selects the field. *)
Lemma decode_typeData_Data_member members : ∀ acc d,
  Data (fold_left decode_typeData_member members acc).1 = Some d →
  Data acc.1 = Some d
  ∨ ∃ key, (key, d) ∈ members ∧ selects "data" key = true.
Proof.
  induction members as [|[key w] ms IH]; intros [op saved] d; simpl.
  - by left.
  - intros Hd. destruct (IH _ _ Hd) as [Hacc|(k & Hin & Hsel)].
    + destruct (selects OperatorType_tag key).
      * left. by destruct w.
      * destruct (selects "data" key) eqn:Hsel; [|by left].
        simpl in Hacc. injection Hacc as <-. right. exists key. split; [by left|done].
    + right. exists k. split; [by right|done].
Qed.

(** X3: what decodes.  When [unmarshalOperatorBool] returns an operator, the
    bytes are a JSON object with a [data] member, its discriminator is
    registered with a constructor of a boolean operator, and the operator
    returned is of the variant that constructor builds. *)
Theorem unmarshalOperatorBool_decoded
  (reg : Registry) (raw : RawMessage) (op : OperatorBool) :
  unmarshalOperatorBool reg raw = Done (Decoded op) →
  ∃ members _op opFunc,
    raw = Some (JObject members)
    ∧ Unmarshal_typeData raw = (_op, None)
    ∧ (∃ key data, (key, data) ∈ members ∧ selects "data" key = true
                   ∧ Data _op = Some data)
    ∧ reg !! Type' _op = Some opFunc
    ∧ match opFunc with
      | NewTrue => op = True_
      | NewFalse => op = False_
      | NewEqBool => ∃ l r, op = EqBool l r
      | NotBool _ => False
      end.
Proof.
  rewrite unmarshalOperatorBool_eq.
  destruct (Unmarshal_typeData raw) as [_op [err|]] eqn:Hraw; [discriminate|].
  destruct (reg !! Type' _op) as [opFunc|] eqn:Hreg; [|discriminate].
  destruct (castOperatorBool opFunc) as [variant|] eqn:Hcast; [|discriminate].
  destruct (Data _op) as [data|] eqn:Hdata; [|discriminate].
  intros Hop.
  assert (Hobj : ∃ members, raw = Some (JObject members)).
  { destruct raw as [[]|]; simpl in Hraw; try discriminate Hraw.
    - injection Hraw as <-. discriminate Hdata.
    - by eexists. }
  destruct Hobj as [members ->]. exists members, _op, opFunc.
  repeat split; try done.
  - simpl in Hraw.
    destruct (decode_typeData_Data_member members
                ({| Type' := ""; Data := None |}, None) data) as [Hz|(key & Hin & Hsel)].
    + by rewrite Hraw.
    + discriminate.
    + by exists key, data.
  - destruct opFunc; simpl in Hcast; try discriminate Hcast;
      injection Hcast as <-; simpl in Hop.
    + by injection Hop as <-.
    + by injection Hop as <-.
    + unfold EqBool_UnmarshalJSON in Hop.
      destruct (Unmarshal_leftRight data) as [eqData [e|]]; [discriminate|].
      destruct (unmarshalOperatorBool reg (LeftOp eqData)) as [[|l]|]; try discriminate.
      destruct (unmarshalOperatorBool reg (RightOp eqData)) as [[|r]|]; try discriminate.
      injection Hop as <-. by exists l, r.
Qed.

Lemma unmarshalOperatorBool_decoded_witness :
  ∃ members _op opFunc,
    Some (MarshalJSON False_) = Some (JObject members)
    ∧ Unmarshal_typeData (Some (MarshalJSON False_)) = (_op, None)
    ∧ (∃ key data, (key, data) ∈ members ∧ selects "data" key = true
                   ∧ Data _op = Some data)
    ∧ operatorFromType !! Type' _op = Some opFunc
    ∧ match opFunc with
      | NewTrue => False_ = True_
      | NewFalse => False_ = False_
      | NewEqBool => ∃ l r, False_ = EqBool l r
      | NotBool _ => False
      end.
Proof.
  apply (unmarshalOperatorBool_decoded operatorFromType (Some (MarshalJSON False_)) False_).
  vm_compute; reflexivity.
Defined.

(** X4: [EqBool.Eval] compares the two operands: the order of the operands
    does not matter, an operator equals itself, and comparing with [True]
    gives the other operand back. *)
Theorem EqBool_Eval_algebra (l r : OperatorBool) :
  Eval (EqBool l r) = Eval (EqBool r l)
  ∧ Eval (EqBool l l) = true
  ∧ Eval (EqBool True_ r) = Eval r
  ∧ Eval (EqBool False_ r) = negb (Eval r)
  ∧ Eval (EqBool (EqBool l r) r) = Eval l.
Proof.
  simpl. destruct (Eval l), (Eval r); by repeat split.
Qed.

End serializer_facts.

(** ** More on [Filter] *)
Section Filter_more_facts.
Import ast evaluate evaluate_ext.
Context `{C : Coercions} `{FO : FilterOperators}.

Lemma validTypeForFilterOperators_unknown operator :
  operator ∉ FILTER_operators → validTypeForFilterOperators !! operator = None.
Proof. intros Hnot. by apply not_elem_of_list_to_map_1. Qed.

Lemma FILTER_operators_distinct i j operator :
  FILTER_operators !! i = Some operator → FILTER_operators !! j = Some operator →
  i = j.
Proof. apply NoDup_lookup, FILTER_distinct. Qed.

Lemma FILTER_IS_IN_LIST_not_fuzzy :
  String.eqb FILTER_IS_IN_LIST FILTER_FUZZY_MATCH = false.
Proof.
  apply String.eqb_neq. intros Heq.
  assert (6 = 12)%nat as Habs; [|discriminate Habs].
  apply (FILTER_operators_distinct _ _ FILTER_FUZZY_MATCH); [|reflexivity].
  simpl. by rewrite Heq.
Qed.

Lemma FILTER_IS_NOT_IN_LIST_not_fuzzy :
  String.eqb FILTER_IS_NOT_IN_LIST FILTER_FUZZY_MATCH = false.
Proof.
  apply String.eqb_neq. intros Heq.
  assert (7 = 12)%nat as Habs; [|discriminate Habs].
  apply (FILTER_operators_distinct _ _ FILTER_FUZZY_MATCH); [|reflexivity].
  simpl. by rewrite Heq.
Qed.

Lemma AdaptNamedArgument_string_inv arguments name s :
  AdaptNamedArgument "" (NamedArgs arguments) name adaptArgumentToString = (s, None) →
  named_string arguments name s.
Proof.
  unfold AdaptNamedArgument, named_string.
  destruct (NamedArgs arguments !! name) as [v|]; [|discriminate].
  destruct (adaptArgumentToString v) as [s' [err|]] eqn:Hv; [discriminate|].
  intros [= <-]. by exists v.
Qed.

Lemma getFieldType_declares_inv dataModel tableName fieldName dataType :
  getFieldType dataModel tableName fieldName = (dataType, None) →
  declares dataModel tableName fieldName dataType.
Proof.
  unfold getFieldType, declares.
  destruct (models.Tables dataModel !! tableName) as [table|]; [|discriminate].
  destruct (models.Fields table !! fieldName) as [[dt]|] eqn:Hf; [|discriminate].
  intros [= <-]. by exists table.
Qed.

(** X5: an operator outside the enumeration is rejected, once the field has
    resolved, with a runtime-expression error attributed to [operator]. *)
Theorem Filter_unknown_operator
  (f : FilterEvaluator) (arguments : Arguments)
  (tableName fieldName : string) (operator : FilterOperator)
  (fieldType : models.DataType) :
  named_string arguments "tableName" tableName →
  named_string arguments "fieldName" fieldName →
  named_string arguments "operator" operator →
  declares (DataModel f) tableName fieldName fieldType →
  operator ∉ FILTER_operators →
  FilterEvaluator_Evaluate f arguments
  = (ANil, [Join [Wrap ErrRuntimeExpression
                    ("operator " +:+ operator +:+ " is not valid in Evaluate filter");
                  NewNamedArgumentError "operator"]]).
Proof.
  intros Ht Hf Ho Hdecl Hnot.
  rewrite (FilterEvaluator_Evaluate_strings _ _ _ _ _ Ht Hf Ho).
  by rewrite (getFieldType_declares _ _ _ _ Hdecl),
    (validTypeForFilterOperators_unknown _ Hnot).
Qed.

(** X6: an operator applied to a field whose declared type is not in the
    operator's list is rejected with an [ArgumentInvalidType] error
    attributed to [fieldName], before the value is looked at. *)
Theorem Filter_type_not_allowed
  (f : FilterEvaluator) (arguments : Arguments)
  (tableName fieldName : string) (operator : FilterOperator)
  (fieldType : models.DataType) (validTypes : list models.DataType) :
  named_string arguments "tableName" tableName →
  named_string arguments "fieldName" fieldName →
  named_string arguments "operator" operator →
  declares (DataModel f) tableName fieldName fieldType →
  validTypeForFilterOperators !! operator = Some validTypes →
  fieldType ∉ validTypes →
  ∃ err,
    FilterEvaluator_Evaluate f arguments = (ANil, [err])
    ∧ errors_Is err ArgumentInvalidType = true
    ∧ names_argument err "fieldName" = true
    ∧ names_argument err "value" = false.
Proof.
  intros Ht Hf Ho Hdecl Hvalid Hnot. eexists.
  rewrite (FilterEvaluator_Evaluate_strings _ _ _ _ _ Ht Hf Ho).
  rewrite (getFieldType_declares _ _ _ _ Hdecl), Hvalid.
  unfold slices_Contains. rewrite bool_decide_eq_false_2 by exact Hnot.
  cbn [negb]. by repeat split.
Qed.

(** X7: the value of a fuzzy-match filter is handed over untouched: no
    coercion is applied to it. *)
Theorem Filter_fuzzy_match_value_untouched
  (f : FilterEvaluator) (arguments : Arguments)
  (tableName fieldName : string) (value : any) :
  named_string arguments "tableName" tableName →
  named_string arguments "fieldName" fieldName →
  named_string arguments "operator" FILTER_FUZZY_MATCH →
  declares (DataModel f) tableName fieldName models.String →
  NamedArgs arguments !! "value" = Some value →
  is_nil value = false →
  FilterEvaluator_Evaluate f arguments
  = (AFilter (Build_Filter tableName fieldName FILTER_FUZZY_MATCH value), []).
Proof.
  intros Ht Hf Ho Hdecl Hvalue Hnil.
  rewrite (FilterEvaluator_Evaluate_strings _ _ _ _ _ Ht Hf Ho).
  rewrite (getFieldType_declares _ _ _ _ Hdecl).
  rewrite (validTypeForFilterOperators_entry FILTER_FUZZY_MATCH [models.String])
    by (unfold validTypeForFilterOperators_entries; set_solver).
  cbn. rewrite (index_map_Some _ _ _ _ Hvalue), Hnil.
  unfold promoteValue. by rewrite String.eqb_refl.
Qed.

(** X8: a [float64] value compared with an integer field is handed over
    unconverted, whatever the (permitted) operator. *)
Theorem Filter_float_value_on_int_field
  (f : FilterEvaluator) (arguments : Arguments)
  (tableName fieldName : string) (operator : FilterOperator)
  (validTypes : list models.DataType) (x : float) :
  named_string arguments "tableName" tableName →
  named_string arguments "fieldName" fieldName →
  named_string arguments "operator" operator →
  declares (DataModel f) tableName fieldName models.Int →
  validTypeForFilterOperators !! operator = Some validTypes →
  models.Int ∈ validTypes →
  NamedArgs arguments !! "value" = Some (AFloat64 x) →
  FilterEvaluator_Evaluate f arguments
  = (AFilter (Build_Filter tableName fieldName operator (AFloat64 x)), []).
Proof.
  intros Ht Hf Ho Hdecl Hvalid Hin Hvalue.
  rewrite (FilterEvaluator_Evaluate_strings _ _ _ _ _ Ht Hf Ho).
  rewrite (getFieldType_declares _ _ _ _ Hdecl), Hvalid.
  unfold slices_Contains. rewrite bool_decide_eq_true_2 by exact Hin.
  cbn [negb]. rewrite (index_map_Some _ _ _ _ Hvalue). cbn [is_nil].
  unfold promoteValue. by destruct (String.eqb operator FILTER_FUZZY_MATCH).
Qed.

(** X9: for the two list operators the value goes through
    [adaptArgumentToListOfStrings]: the descriptor carries the list of
    strings it returns, and when it fails the evaluation fails with an
    [ArgumentInvalidType] error attributed to [value] that keeps the cause. *)
Theorem Filter_list_operator_value
  (f : FilterEvaluator) (arguments : Arguments)
  (tableName fieldName : string) (operator : FilterOperator) (value : any) :
  named_string arguments "tableName" tableName →
  named_string arguments "fieldName" fieldName →
  named_string arguments "operator" operator →
  operator = FILTER_IS_IN_LIST ∨ operator = FILTER_IS_NOT_IN_LIST →
  declares (DataModel f) tableName fieldName models.String →
  NamedArgs arguments !! "value" = Some value →
  is_nil value = false →
  FilterEvaluator_Evaluate f arguments
  = match adaptArgumentToListOfStrings value with
    | (strings, None) =>
        (AFilter (Build_Filter tableName fieldName operator (AStrings strings)), [])
    | (_, Some cause) =>
        (ANil,
         [Join [Wrap ErrArgumentInvalidType
                  ("value is not compatible with selected field " +:+ tableName
                   +:+ "." +:+ fieldName +:+ " in Evaluate filter");
                NewNamedArgumentError "value";
                cause]])
    end.
Proof.
  intros Ht Hf Ho Hop Hdecl Hvalue Hnil.
  rewrite (FilterEvaluator_Evaluate_strings _ _ _ _ _ Ht Hf Ho).
  rewrite (getFieldType_declares _ _ _ _ Hdecl).
  assert (Hvalid : validTypeForFilterOperators !! operator = Some [models.String]).
  { apply validTypeForFilterOperators_entry.
    unfold validTypeForFilterOperators_entries. destruct Hop as [-> | ->]; set_solver. }
  rewrite Hvalid. cbn. rewrite (index_map_Some _ _ _ _ Hvalue), Hnil.
  unfold promoteValue.
  assert (Hfuzzy : String.eqb operator FILTER_FUZZY_MATCH = false).
  { destruct Hop as [-> | ->];
      [apply FILTER_IS_IN_LIST_not_fuzzy | apply FILTER_IS_NOT_IN_LIST_not_fuzzy]. }
  assert (Hlist : String.eqb operator FILTER_IS_IN_LIST
                  || String.eqb operator FILTER_IS_NOT_IN_LIST = true).
  { destruct Hop as [-> | ->]; rewrite String.eqb_refl; [done | by rewrite orb_true_r]. }
  rewrite Hfuzzy, Hlist. cbn.
  by destruct (adaptArgumentToListOfStrings value) as [strings [cause|]].
Qed.

(** X10: what [Evaluate] returns is either no value with at least one
    error, or a descriptor with no error; and a descriptor is returned only
    for three string arguments that name a declared field and an operator
    of the enumeration permitted on the declared type of that field. *)
Theorem Filter_result_sound
  (f : FilterEvaluator) (arguments : Arguments) (v : any) (errs : list error) :
  FilterEvaluator_Evaluate f arguments = (v, errs) →
  (errs ≠ [] ∧ v = ANil)
  ∨ (errs = []
     ∧ ∃ tableName fieldName operator fieldType validTypes promoted,
         v = AFilter (Build_Filter tableName fieldName operator promoted)
         ∧ named_string arguments "tableName" tableName
         ∧ named_string arguments "fieldName" fieldName
         ∧ named_string arguments "operator" operator
         ∧ declares (DataModel f) tableName fieldName fieldType
         ∧ validTypeForFilterOperators !! operator = Some validTypes
         ∧ fieldType ∈ validTypes).
Proof.
  unfold FilterEvaluator_Evaluate, MakeEvaluateError.
  destruct (AdaptNamedArgument "" (NamedArgs arguments) "tableName" _)
    as [tableName [e1|]] eqn:H1;
  destruct (AdaptNamedArgument "" (NamedArgs arguments) "fieldName" _)
    as [fieldName [e2|]] eqn:H2;
  destruct (AdaptNamedArgument "" (NamedArgs arguments) "operator" _)
    as [operator [e3|]] eqn:H3;
  cbn -[validTypeForFilterOperators getFieldType promoteValue];
  try (intros [= <- <-]; left; by split).
  destruct (getFieldType (DataModel f) tableName fieldName) as [fieldType [e|]] eqn:Hft;
    [intros [= <- <-]; left; by split|].
  destruct (validTypeForFilterOperators !! operator) as [validTypes|] eqn:Hvalid;
    [|intros [= <- <-]; left; by split].
  unfold slices_Contains.
  destruct (bool_decide (fieldType ∈ validTypes)) eqn:Hin; cbn [negb];
    [|intros [= <- <-]; left; by split].
  apply bool_decide_eq_true_1 in Hin.
  assert (Hsound : ∀ promoted,
    ∃ tn fn op ft vts pv,
      AFilter (Build_Filter tableName fieldName operator promoted)
      = AFilter (Build_Filter tn fn op pv)
      ∧ named_string arguments "tableName" tn
      ∧ named_string arguments "fieldName" fn
      ∧ named_string arguments "operator" op
      ∧ declares (DataModel f) tn fn ft
      ∧ validTypeForFilterOperators !! op = Some vts
      ∧ ft ∈ vts).
  { intros promoted.
    exists tableName, fieldName, operator, fieldType, validTypes, promoted.
    repeat split; try done.
    - by apply AdaptNamedArgument_string_inv.
    - by apply AdaptNamedArgument_string_inv.
    - by apply AdaptNamedArgument_string_inv.
    - by apply getFieldType_declares_inv. }
  destruct (is_nil (index_map ANil (NamedArgs arguments) "value")).
  - intros [= <- <-]. right. split; [done|]. apply Hsound.
  - destruct (promoteValue operator fieldType _) as [promoted [e|]].
    + intros [= <- <-]. left. by split.
    + intros [= <- <-]. right. split; [done|]. apply Hsound.
Qed.

End Filter_more_facts.

(** *** Concrete runs for the further facts on [Filter] *)
Section Filter_more_runs.
Import ast evaluate evaluate_ext.

Lemma example_filter_value_named fieldName operator value :
  @named_string spec_Coercions (example_filter_value fieldName operator value)
    "tableName" "orders"
  ∧ @named_string spec_Coercions (example_filter_value fieldName operator value)
      "fieldName" fieldName
  ∧ @named_string spec_Coercions (example_filter_value fieldName operator value)
      "operator" operator.
Proof.
  unfold named_string, example_filter_value. cbn [NamedArgs].
  split; [exists (AString "orders")
         | split; [exists (AString fieldName) | exists (AString operator)]];
    (split; [by simplify_map_eq | reflexivity]).
Qed.

Lemma example_stock_declares_status :
  declares example_stock "orders" "status" models.String.
Proof. eexists. split; reflexivity. Qed.

Lemma example_stock_declares_quantity :
  declares example_stock "orders" "quantity" models.Int.
Proof. eexists. split; reflexivity. Qed.

Lemma Filter_unknown_operator_witness :
  @FilterEvaluator_Evaluate spec_Coercions spec_FilterOperators
    {| DataModel := example_stock |} (example_filter_value "status" "between" ANil)
  = (ANil, [Join [Wrap ErrRuntimeExpression
                    ("operator " +:+ "between" +:+ " is not valid in Evaluate filter");
                  NewNamedArgumentError "operator"]]).
Proof.
  destruct (example_filter_value_named "status" "between" ANil) as (Ht & Hf & Ho).
  apply (@Filter_unknown_operator spec_Coercions spec_FilterOperators
           {| DataModel := example_stock |}
           (example_filter_value "status" "between" ANil)
           "orders" "status" "between" models.String).
  - exact Ht.
  - exact Hf.
  - exact Ho.
  - exact example_stock_declares_status.
  - apply (bool_decide_unpack _). vm_compute. exact I.
Defined.

Lemma Filter_type_not_allowed_witness :
  ∃ err,
    @FilterEvaluator_Evaluate spec_Coercions spec_FilterOperators
      {| DataModel := example_stock |}
      (example_filter_value "quantity" "starts-with" (AString "1"))
    = (ANil, [err])
    ∧ errors_Is err ArgumentInvalidType = true
    ∧ names_argument err "fieldName" = true
    ∧ names_argument err "value" = false.
Proof.
  destruct (example_filter_value_named "quantity" "starts-with" (AString "1"))
    as (Ht & Hf & Ho).
  apply (@Filter_type_not_allowed spec_Coercions spec_FilterOperators
           {| DataModel := example_stock |}
           (example_filter_value "quantity" "starts-with" (AString "1"))
           "orders" "quantity" "starts-with" models.Int [models.String]).
  - exact Ht.
  - exact Hf.
  - exact Ho.
  - exact example_stock_declares_quantity.
  - vm_compute. reflexivity.
  - apply (bool_decide_unpack _). vm_compute. exact I.
Defined.

Lemma Filter_fuzzy_match_value_untouched_witness :
  @FilterEvaluator_Evaluate spec_Coercions spec_FilterOperators
    {| DataModel := example_stock |}
    (example_filter_value "status" "fuzzy-match" (ASlice [AString "paid"; AInt64 80]))
  = (AFilter (Build_Filter "orders" "status" "fuzzy-match"
                (ASlice [AString "paid"; AInt64 80])), []).
Proof.
  destruct (example_filter_value_named "status" "fuzzy-match"
              (ASlice [AString "paid"; AInt64 80])) as (Ht & Hf & Ho).
  apply (@Filter_fuzzy_match_value_untouched spec_Coercions spec_FilterOperators
           {| DataModel := example_stock |}
           (example_filter_value "status" "fuzzy-match"
              (ASlice [AString "paid"; AInt64 80]))
           "orders" "status" (ASlice [AString "paid"; AInt64 80])).
  - exact Ht.
  - exact Hf.
  - exact Ho.
  - exact example_stock_declares_status.
  - vm_compute. reflexivity.
  - reflexivity.
Defined.

Lemma Filter_float_value_on_int_field_witness :
  @FilterEvaluator_Evaluate spec_Coercions spec_FilterOperators
    {| DataModel := example_stock |}
    (example_filter_value "quantity" "greater" (AFloat64 2.5))
  = (AFilter (Build_Filter "orders" "quantity" "greater" (AFloat64 2.5)), []).
Proof.
  destruct (example_filter_value_named "quantity" "greater" (AFloat64 2.5))
    as (Ht & Hf & Ho).
  apply (@Filter_float_value_on_int_field spec_Coercions spec_FilterOperators
           {| DataModel := example_stock |}
           (example_filter_value "quantity" "greater" (AFloat64 2.5))
           "orders" "quantity" "greater"
           [models.Int; models.Float; models.String; models.Timestamp] 2.5%float).
  - exact Ht.
  - exact Hf.
  - exact Ho.
  - exact example_stock_declares_quantity.
  - vm_compute. reflexivity.
  - apply (bool_decide_unpack _). vm_compute. exact I.
  - vm_compute. reflexivity.
Defined.

Lemma Filter_list_operator_value_witness :
  @FilterEvaluator_Evaluate spec_Coercions spec_FilterOperators
    {| DataModel := example_stock |}
    (example_filter_value "status" "is-in-list" (ASlice [AString "a"; AString "b"]))
  = (AFilter (Build_Filter "orders" "status" "is-in-list" (AStrings ["a"; "b"])), []).
Proof.
  destruct (example_filter_value_named "status" "is-in-list"
              (ASlice [AString "a"; AString "b"])) as (Ht & Hf & Ho).
  apply (@Filter_list_operator_value spec_Coercions spec_FilterOperators
           {| DataModel := example_stock |}
           (example_filter_value "status" "is-in-list"
              (ASlice [AString "a"; AString "b"]))
           "orders" "status" "is-in-list" (ASlice [AString "a"; AString "b"])).
  - exact Ht.
  - exact Hf.
  - exact Ho.
  - left. reflexivity.
  - exact example_stock_declares_status.
  - vm_compute. reflexivity.
  - reflexivity.
Defined.

Lemma Filter_result_sound_witness :
  ([] : list error) = []
  ∧ ∃ tableName fieldName operator fieldType validTypes promoted,
      AFilter (Build_Filter "orders" "quantity" "greater" (AFloat64 2.5))
      = AFilter (Build_Filter tableName fieldName operator promoted)
      ∧ @named_string spec_Coercions
          (example_filter_value "quantity" "greater" (AFloat64 2.5))
          "tableName" tableName
      ∧ @named_string spec_Coercions
          (example_filter_value "quantity" "greater" (AFloat64 2.5))
          "fieldName" fieldName
      ∧ @named_string spec_Coercions
          (example_filter_value "quantity" "greater" (AFloat64 2.5))
          "operator" operator
      ∧ declares example_stock tableName fieldName fieldType
      ∧ @validTypeForFilterOperators spec_FilterOperators !! operator
        = Some validTypes
      ∧ fieldType ∈ validTypes.
Proof.
  destruct (@Filter_result_sound spec_Coercions spec_FilterOperators
              {| DataModel := example_stock |}
              (example_filter_value "quantity" "greater" (AFloat64 2.5))
              (AFilter (Build_Filter "orders" "quantity" "greater" (AFloat64 2.5)))
              []) as [[Habs _]|Hsound].
  - vm_compute. reflexivity.
  - destruct Habs. reflexivity.
  - exact Hsound.
Defined.

End Filter_more_runs.

(** ** More on [Equal] *)
Section Equal_more_facts.
Import ast evaluate evaluate_ext.

(** *** The distance of two doubles *)

Lemma SFabs_binary_round_sign (p : positive) (e : Z) :
  SFabs (binary_round prec emax true p e) = SFabs (binary_round prec emax false p e).
Proof.
  unfold binary_round, binary_round_aux.
  destruct (shl_align _ _ _) as [mz ez].
  destruct (shr_fexp _ _ _ _ _) as [mrs' e'].
  destruct (shr_fexp _ _ _ _ _) as [mrs'' e''].
  destruct (shr_m mrs''); try reflexivity.
  destruct (Z.leb _ _); reflexivity.
Qed.

Lemma SFabs_binary_normalize_opp (m e : Z) :
  SFabs (binary_normalize prec emax (- m) e false)
  = SFabs (binary_normalize prec emax m e false).
Proof.
  destruct m as [|p|p]; simpl; try reflexivity.
  - apply SFabs_binary_round_sign.
  - symmetry. apply SFabs_binary_round_sign.
Qed.

Lemma SFabs_SFsub_comm (x y : spec_float) :
  SFabs (SFsub prec emax x y) = SFabs (SFsub prec emax y x).
Proof.
  destruct x as [sx|sx| |sx mx ex], y as [sy|sy| |sy my ey]; simpl; try reflexivity;
    try (destruct sx, sy; reflexivity).
  rewrite (Z.min_comm ey ex), <- SFabs_binary_normalize_opp.
  f_equal. f_equal. lia.
Qed.

(** [math.Abs(l - r)] does not depend on the order of the operands. *)
Lemma abs_sub_comm (l r : float) :
  PrimFloat.abs (PrimFloat.sub l r) = PrimFloat.abs (PrimFloat.sub r l).
Proof.
  apply Prim2SF_inj. rewrite !abs_spec, !sub_spec. apply SFabs_SFsub_comm.
Qed.

(** A double is within the threshold of itself exactly when it is finite:
    the difference of an infinity or a NaN with itself is a NaN, which
    compares with nothing. *)
Lemma within_threshold_of_itself (x : float) :
  PrimFloat.ltb (PrimFloat.abs (PrimFloat.sub x x)) floatEqualityThreshold
  = is_finite x.
Proof.
  rewrite ltb_spec, abs_spec, sub_spec. unfold is_finite.
  replace (Prim2SF floatEqualityThreshold)
    with (S754_finite false 6044629098073146 (-79)) by (vm_compute; reflexivity).
  destruct (Prim2SF x) as [s|s| |s m e];
    [destruct s; reflexivity | destruct s; reflexivity | reflexivity |].
  unfold SF64sub, SFsub. rewrite Z.sub_diag. reflexivity.
Qed.

(** *** Order of the operands *)

Lemma first_shared_representation_comm `{Coercions} (l r : any) :
  first_shared_representation l r = first_shared_representation r l.
Proof.
  unfold first_shared_representation, ladder. cbn [find].
  by rewrite (andb_comm (coerces_into AsString l)),
    (andb_comm (coerces_into AsBool l)), (andb_comm (coerces_into AsInt64 l)),
    (andb_comm (coerces_into AsFloat64 l)), (andb_comm (coerces_into AsTime l)).
Qed.

Lemma typed_equality_comm `{Coercions} (rep : Representation) (l r : any) :
  typed_equality rep l r = typed_equality rep r l.
Proof.
  destruct rep; simpl.
  - apply String.eqb_sym.
  - by destruct (adaptArgumentToBool l).1, (adaptArgumentToBool r).1.
  - apply Z.eqb_sym.
  - by rewrite abs_sub_comm.
  - apply Z.eqb_sym.
Qed.

(** X11: [Equal] is symmetric: swapping the two operands changes neither the
    rung that decides, nor the result, nor whether it fails.  This holds on
    the float rung too, the distance [|l - r|] being that of [|r - l|]. *)
Theorem Equal_symmetric `{Coercions} (l r : any) (named named' : gmap string any) :
  Equal_Evaluate {| Args := [l; r]; NamedArgs := named |}
  = Equal_Evaluate {| Args := [r; l]; NamedArgs := named' |}.
Proof.
  rewrite !Equal_Evaluate_ladder, (first_shared_representation_comm l r).
  destruct (first_shared_representation r l) as [rep|]; [|reflexivity].
  by rewrite typed_equality_comm.
Qed.

Lemma first_shared_representation_diag `{Coercions} (v : any) :
  first_shared_representation v v = first_representation v.
Proof.
  unfold first_shared_representation, first_representation, ladder. cbn [find].
  by rewrite !andb_diag.
Qed.

(** X12: an operand compared with itself.  [Equal(v, v)] fails when [v]
    coerces into no representation; it is true on the string, boolean,
    integer and timestamp rungs; on the float rung it is true exactly when
    the double is finite, and false for an infinity or a NaN. *)
Theorem Equal_with_itself `{Coercions} (v : any) (named : gmap string any) :
  Equal_Evaluate {| Args := [v; v]; NamedArgs := named |}
  = match first_representation v with
    | Some AsFloat64 => (ABool (is_finite (promoteArgumentToFloat64 v).1), [])
    | Some _ => (ABool true, [])
    | None =>
        (ANil,
         [Wrap ErrArgumentInvalidType
            "all arguments to Equal Evaluate must be string, boolean, time, int or float"])
    end.
Proof.
  rewrite Equal_Evaluate_ladder, first_shared_representation_diag.
  destruct (first_representation v) as [[]|]; simpl; try reflexivity.
  - by rewrite String.eqb_refl.
  - by destruct (adaptArgumentToBool v).1.
  - by rewrite Z.eqb_refl.
  - by rewrite within_threshold_of_itself.
  - unfold Time_Equal. by rewrite Z.eqb_refl.
Qed.

(** The two sides of X12 on doubles, with the coercions modelled from the
    specification. *)
Example Equal_infinity_with_itself :
  @Equal_Evaluate spec_Coercions
    {| Args := [AFloat64 infinity; AFloat64 infinity]; NamedArgs := ∅ |}
  = (ABool false, []).
Proof. vm_compute. reflexivity. Qed.

(** X13: whatever the arguments, [Equal] returns a boolean with no error, or
    no value with exactly one error; with two operands the error can only be
    the invalid-type one. *)
Theorem Equal_result_shape `{Coercions} (arguments : Arguments) :
  (∃ b, Equal_Evaluate arguments = (ABool b, []))
  ∨ (∃ err, Equal_Evaluate arguments = (ANil, [err])
            ∧ (length (Args arguments) = 2 →
               errors_Is err ArgumentInvalidType = true)).
Proof.
  destruct arguments as [[|l [|r [|x rest]]] named];
    try (right; eexists; split; [reflexivity|discriminate]).
  rewrite Equal_Evaluate_ladder.
  destruct (first_shared_representation l r) as [rep|].
  - left. by eexists.
  - right. eexists. by split.
Qed.

End Equal_more_facts.

(** ** More on [AllErrors] *)
Section AllErrors_more_facts.
Import ast ast_ext.

(** Every run of the closure appends a rearrangement of the errors of the
    node, those of the listed-order run. *)
Lemma addEvaluationErrors_permutation :
  ∀ node errs errs', addEvaluationErrors node errs errs' →
    errs' ≡ₚ errs ++ AllErrors_listed node.
Proof.
  apply (addEvaluationErrors_mut
    (λ node errs errs' _, errs' ≡ₚ errs ++ AllErrors_listed node)
    (λ children errs errs' _, errs' ≡ₚ errs ++ flat_map AllErrors_listed children)
    (λ named errs errs' _,
       errs' ≡ₚ errs ++ flat_map (λ entry, AllErrors_listed entry.2) named)).
  - intros [rv own children named] errs errs1 errs2 order _ Hc Hperm _ Hn.
    simpl in *. rewrite Hn, Hc, <- !app_assoc.
    do 3 f_equiv. by apply Permutation_flat_map.
  - intros errs. by rewrite app_nil_r.
  - intros child rest errs errs1 errs2 _ Hchild _ Hrest. simpl.
    by rewrite Hrest, Hchild, <- app_assoc.
  - intros errs. by rewrite app_nil_r.
  - intros name child rest errs errs1 errs2 _ Hchild _ Hrest. simpl.
    by rewrite Hrest, Hchild, <- app_assoc.
Qed.

(** X14: [AllErrors] neither loses nor repeats an error: whatever order the
    maps are ranged over, the result is a rearrangement of the errors of all
    the nodes, so two results of the same tree have the same errors, each
    the same number of times. *)
Theorem AllErrors_same_errors (root : NodeEvaluation) (errs errs' : list error) :
  AllErrors root errs → AllErrors root errs' →
  errs ≡ₚ AllErrors_listed root
  ∧ errs ≡ₚ errs'
  ∧ length errs = length errs'.
Proof.
  intros Hrun Hrun'.
  apply addEvaluationErrors_permutation in Hrun, Hrun'. simpl in Hrun, Hrun'.
  split; [exact Hrun|]. split.
  - by rewrite Hrun, Hrun'.
  - by rewrite Hrun, Hrun'.
Qed.

Lemma flat_map_all_nil {A B : Type} (f : A → list B) (l : list A) :
  (∀ x, In x l → f x = []) → flat_map f l = [].
Proof.
  induction l as [|a l IH]; intros Hall; simpl; [done|].
  rewrite (Hall a) by (by left). apply IH. intros x Hin. apply Hall. by right.
Qed.

Lemma AllErrors_listed_nil (node : NodeEvaluation) :
  AllErrors_listed node = [] ↔ error_free node = true.
Proof.
  induction node as [rv own children named IHc IHn] using NodeEvaluation_tree_ind.
  simpl. rewrite !andb_true_iff, !forallb_forall.
  split.
  - intros Hnil. apply app_eq_nil in Hnil as [-> Hnil].
    apply app_eq_nil in Hnil as [Hc Hn]. repeat split.
    + intros c Hin. rewrite Forall_forall in IHc.
      apply IHc; [by apply list_elem_of_In|].
      destruct (AllErrors_listed c) as [|e es] eqn:Hlisted; [done|].
      assert (Hmem : In e (flat_map AllErrors_listed children)).
      { apply in_flat_map. exists c. split; [done|]. rewrite Hlisted. by left. }
      rewrite Hc in Hmem. destruct Hmem.
    + intros entry Hin. rewrite Forall_forall in IHn.
      apply IHn; [by apply list_elem_of_In|].
      destruct (AllErrors_listed entry.2) as [|e es] eqn:Hlisted; [done|].
      assert (Hmem : In e (flat_map (λ entry, AllErrors_listed entry.2) named)).
      { apply in_flat_map. exists entry. split; [done|]. rewrite Hlisted. by left. }
      rewrite Hn in Hmem. destruct Hmem.
  - intros [[Hown Hc] Hn]. destruct own; [|discriminate]. simpl.
    rewrite Forall_forall in IHc. rewrite Forall_forall in IHn.
    assert (Hfc : flat_map AllErrors_listed children = []).
    { apply flat_map_all_nil. intros c Hin. apply IHc; [by apply list_elem_of_In|].
      by apply Hc. }
    assert (Hfn : flat_map (λ entry, AllErrors_listed entry.2) named = []).
    { apply flat_map_all_nil. intros c Hin. apply IHn; [by apply list_elem_of_In|].
      by apply Hn. }
    by rewrite Hfc, Hfn.
Qed.

(** X15: the list [AllErrors] returns is empty exactly when no node of the
    tree carries an error. *)
Theorem AllErrors_empty_iff_error_free (root : NodeEvaluation) (errs : list error) :
  AllErrors root errs → (errs = [] ↔ error_free root = true).
Proof.
  intros Hrun. apply addEvaluationErrors_permutation in Hrun. simpl in Hrun.
  rewrite <- AllErrors_listed_nil. split.
  - intros ->. symmetry in Hrun. by apply Permutation_nil_r in Hrun.
  - intros Hnil. rewrite Hnil in Hrun. by apply Permutation_nil_r in Hrun.
Qed.

Lemma AllErrors_empty_iff_error_free_witness :
  AllErrors_listed (Build_NodeEvaluation (ABool true) []
                      [Build_NodeEvaluation ANil [] [] []] []) = []
  ↔ error_free (Build_NodeEvaluation (ABool true) []
                  [Build_NodeEvaluation ANil [] [] []] []) = true.
Proof.
  apply (AllErrors_empty_iff_error_free
           (Build_NodeEvaluation (ABool true) []
              [Build_NodeEvaluation ANil [] [] []] [])).
  apply (addEvaluationErrors_listed
           (Build_NodeEvaluation (ABool true) []
              [Build_NodeEvaluation ANil [] [] []] []) []).
Defined.

Lemma AllErrors_same_errors_witness :
  [Sentinel NullValue; Sentinel NotFoundInData]
  ≡ₚ [Sentinel NotFoundInData; Sentinel NullValue].
Proof.
  destruct (AllErrors_named_either_order (Sentinel NullValue) (Sentinel NotFoundInData))
    as [H12 H21].
  destruct (AllErrors_same_errors _ _ _ H12 H21) as (_ & Hperm & _).
  exact Hperm.
Defined.

(** A rearrangement of at most one entry is the entry itself. *)
Lemma Permutation_short {A : Type} (l l' : list A) :
  (length l ≤ 1)%nat → l' ≡ₚ l → l' = l.
Proof.
  intros Hlen Hperm. destruct l as [|x [|y l]]; simpl in Hlen; [| |lia].
  - by apply Permutation_nil_r in Hperm.
  - by apply Permutation_singleton_r in Hperm.
Qed.

Lemma addEvaluationErrors_single_named :
  ∀ node errs errs', addEvaluationErrors node errs errs' →
    single_named node = true → errs' = errs ++ AllErrors_listed node.
Proof.
  apply (addEvaluationErrors_mut
    (λ node errs errs' _,
       single_named node = true → errs' = errs ++ AllErrors_listed node)
    (λ children errs errs' _,
       forallb single_named children = true →
       errs' = errs ++ flat_map AllErrors_listed children)
    (λ named errs errs' _,
       forallb (λ entry, single_named entry.2) named = true →
       errs' = errs ++ flat_map (λ entry, AllErrors_listed entry.2) named)).
  - intros [rv own children named] errs errs1 errs2 order _ Hc Hperm _ Hn Hsingle.
    simpl in *. apply andb_true_iff in Hsingle as [Hsingle Hnamed].
    apply andb_true_iff in Hsingle as [Hlen Hchildren].
    apply Nat.leb_le in Hlen.
    rewrite (Permutation_short _ _ Hlen Hperm) in Hn.
    rewrite (Hn Hnamed), (Hc Hchildren). by rewrite <- !app_assoc.
  - intros errs _. by rewrite app_nil_r.
  - intros child rest errs errs1 errs2 _ Hchild _ Hrest Hall. simpl in *.
    apply andb_true_iff in Hall as [H1 H2].
    by rewrite (Hrest H2), (Hchild H1), <- app_assoc.
  - intros errs _. by rewrite app_nil_r.
  - intros name child rest errs errs1 errs2 _ Hchild _ Hrest Hall. simpl in *.
    apply andb_true_iff in Hall as [H1 H2].
    by rewrite (Hrest H2), (Hchild H1), <- app_assoc.
Qed.

(** X16: when no node has more than one named child (in particular in a
    tree with positional children only) the order of the result is fixed:
    [AllErrors] has exactly one result, the listed-order flattening. *)
Theorem AllErrors_single_named_unique (root : NodeEvaluation) (errs : list error) :
  single_named root = true →
  (AllErrors root errs ↔ errs = AllErrors_listed root).
Proof.
  intros Hsingle. split.
  - intros Hrun. by apply (addEvaluationErrors_single_named root [] errs).
  - intros ->. apply (addEvaluationErrors_listed root []).
Qed.

Lemma AllErrors_single_named_unique_witness :
  AllErrors
    (Build_NodeEvaluation ANil [Sentinel NullValue]
       [Build_NodeEvaluation ANil [Sentinel NotFoundInData] [] []] [])
    [Sentinel NullValue; Sentinel NotFoundInData]
  ↔ [Sentinel NullValue; Sentinel NotFoundInData]
    = AllErrors_listed
        (Build_NodeEvaluation ANil [Sentinel NullValue]
           [Build_NodeEvaluation ANil [Sentinel NotFoundInData] [] []] []).
Proof.
  apply (AllErrors_single_named_unique
           (Build_NodeEvaluation ANil [Sentinel NullValue]
              [Build_NodeEvaluation ANil [Sentinel NotFoundInData] [] []] [])
           [Sentinel NullValue; Sentinel NotFoundInData]).
  reflexivity.
Defined.

End AllErrors_more_facts.

(** ** More on the field-path resolver *)
Section FieldAt_more_facts.
Import app app_ext.

Lemma resolves_nonempty dm rootName path field :
  resolves dm rootName path field → path ≠ [].
Proof. by destruct 1. Qed.

(** X17: a path of declared names resolves to the declared field: each link
    leads to its linked table and the last element is looked up there. *)
Theorem FieldAt_resolves
  (dm : DataModel) (rootName : string) (path : list string) (field : Field) :
  resolves dm rootName path field → FieldAt dm rootName path = Returns field.
Proof.
  induction 1 as [root table name field Htable Hfield
                 |root table l link path field Htable Hlink Hres IH].
  - simpl. by rewrite (index_map_Some _ _ _ _ Htable), (index_map_Some _ _ _ _ Hfield).
  - destruct path as [|p1 rest]; [by apply resolves_nonempty in Hres|].
    rewrite FieldAt_step.
    by rewrite (index_map_Some _ _ _ _ Htable), (index_map_Some _ _ _ _ Hlink).
Qed.

Lemma FieldAt_resolves_witness :
  FieldAt example_data_model "orders" ["customer"; "name"]
  = Returns {| DataType_ := String |}.
Proof.
  apply (FieldAt_resolves example_data_model "orders" ["customer"; "name"]).
  eapply resolves_link; [reflexivity | reflexivity |].
  eapply resolves_field; reflexivity.
Defined.

(** X18: resolving a path is resolving its tail from the table its head
    leads to: for a non-empty [path], [FieldAt] on [links ++ path] from
    [rootName] is [FieldAt] on [path] from the table reached along
    [links]. *)
Theorem FieldAt_app
  (dm : DataModel) (rootName : string) (links path : list string) :
  path ≠ [] →
  FieldAt dm rootName (links ++ path) = FieldAt dm (follow dm rootName links) path.
Proof.
  intros Hne. revert rootName.
  induction links as [|l links IH]; intros rootName; [reflexivity|].
  simpl app. destruct (links ++ path) as [|p1 rest] eqn:Happ.
  - apply app_eq_nil in Happ as [_ ->]. congruence.
  - rewrite FieldAt_step. apply IH.
Qed.

Lemma FieldAt_app_witness :
  FieldAt example_data_model "orders" (["customer"] ++ ["name"])
  = FieldAt example_data_model (follow example_data_model "orders" ["customer"])
      ["name"].
Proof.
  apply (FieldAt_app example_data_model "orders" ["customer"] ["name"]).
  discriminate.
Defined.

(** X19: [FieldAt] invents no field: on a non-empty path, what it returns is
    a field declared by some table of the data model, or the zero field. *)
Theorem FieldAt_declared_or_zero
  (dm : DataModel) (rootName : string) (path : list string) (field : Field) :
  path ≠ [] →
  FieldAt dm rootName path = Returns field →
  field = zero_Field
  ∨ ∃ tableName table fieldName,
      Tables dm !! tableName = Some table ∧ Fields table !! fieldName = Some field.
Proof.
  intros Hne. revert rootName.
  induction path as [|p0 [|p1 rest] IH]; intros rootName.
  - congruence.
  - simpl. intros [= <-]. unfold index_map.
    destruct (Tables dm !! rootName) as [table|] eqn:Htable; simpl.
    + destruct (Fields table !! p0) as [f|] eqn:Hfield; simpl; [|by left].
      right. by exists rootName, table, p0.
    + left. unfold zero_Table. simpl. by rewrite lookup_empty.
  - rewrite FieldAt_step. apply IH. discriminate.
Qed.

Lemma FieldAt_declared_or_zero_witness :
  {| DataType_ := String |} = zero_Field
  ∨ ∃ tableName table fieldName,
      Tables example_data_model !! tableName = Some table
      ∧ Fields table !! fieldName = Some {| DataType_ := String |}.
Proof.
  apply (FieldAt_declared_or_zero example_data_model "orders" ["customer"; "name"]).
  - discriminate.
  - vm_compute. reflexivity.
Defined.

End FieldAt_more_facts.

(** ** Scheduled-execution statuses and permissions *)
Section models_enums_facts.
Import models_enums.

(** X20: a status survives the round trip through its name exactly when it
    is one of the four declared constants; any other integer prints as
    [pending] and reads back as [ScheduledExecutionPending]. *)
Theorem ScheduledExecutionStatus_roundtrip (s : Z) :
  (ScheduledExecutionStatusFrom (ScheduledExecutionStatus_String s) = s
   ↔ (0 ≤ s ≤ 3)%Z)
  ∧ (¬ (0 ≤ s ≤ 3)%Z →
     ScheduledExecutionStatusFrom (ScheduledExecutionStatus_String s)
     = ScheduledExecutionPending).
Proof.
  unfold ScheduledExecutionStatus_String, ScheduledExecutionPending,
    ScheduledExecutionProcessing, ScheduledExecutionSuccess,
    ScheduledExecutionFailure.
  destruct (Z.eqb_spec s 0) as [->|H0]; [split; [by split; [lia|]|lia]|].
  destruct (Z.eqb_spec s 1) as [->|H1]; [split; [by split; [lia|]|lia]|].
  destruct (Z.eqb_spec s 2) as [->|H2]; [split; [by split; [lia|]|lia]|].
  destruct (Z.eqb_spec s 3) as [->|H3]; [split; [by split; [lia|]|lia]|].
  split; [|done]. cbn. unfold ScheduledExecutionPending. lia.
Qed.

(** X21: reading a name and printing the status gives the name back for the
    four names; every other string reads as pending, so it prints as
    [pending]; and what is read is always a declared constant. *)
Theorem ScheduledExecutionStatusFrom_String (name : string) :
  ScheduledExecutionStatus_String (ScheduledExecutionStatusFrom name)
  = (if bool_decide (name ∈ ["pending"; "processing"; "success"; "failure"])
     then name else "pending")
  ∧ (0 ≤ ScheduledExecutionStatusFrom name ≤ 3)%Z.
Proof.
  unfold ScheduledExecutionStatusFrom.
  destruct (String.eqb_spec name "pending") as [->|Hp]; [by split|].
  destruct (String.eqb_spec name "success") as [->|Hs]; [by split|].
  destruct (String.eqb_spec name "failure") as [->|Hf]; [by split|].
  destruct (String.eqb_spec name "processing") as [->|Hr]; [by split|].
  split; [|done].
  rewrite bool_decide_eq_false_2; [done|].
  rewrite !elem_of_cons, elem_of_nil. intros [?|[?|[?|[?|[]]]]]; congruence.
Qed.

Lemma Permission_names_NoDup : NoDup Permission_names.
Proof. apply (bool_decide_unpack _). vm_compute. exact I. Qed.

(** X22: [Permission.String] returns a name exactly for the sixteen declared
    permissions and panics for any other integer, negative or above; on the
    declared permissions it is injective. *)
Theorem Permission_String_defined (r : Z) :
  ((∃ name, Permission_String r = Returns name) ↔ (0 ≤ r < 16)%Z)
  ∧ ((∃ reason, Permission_String r = Panics reason) ↔ ¬ (0 ≤ r < 16)%Z)
  ∧ ∀ r' name, Permission_String r = Returns name →
               Permission_String r' = Returns name → r = r'.
Proof.
  assert (Hret : ∀ q name, Permission_String q = Returns name →
            (0 ≤ q < 16)%Z ∧ Permission_names !! Z.to_nat q = Some name).
  { intros q name. unfold Permission_String.
    destruct ((q <? 0)%Z || (Z.of_nat (length Permission_names) <=? q)%Z) eqn:Hout;
      [discriminate|].
    apply orb_false_iff in Hout as [Hneg Hlen].
    apply Z.ltb_ge in Hneg. apply Z.leb_gt in Hlen. simpl in Hlen.
    destruct (Permission_names !! Z.to_nat q) as [n|]; [|discriminate].
    intros [= <-]. split; [lia|done]. }
  assert (Hin : (0 ≤ r < 16)%Z → ∃ name, Permission_String r = Returns name).
  { intros Hr. unfold Permission_String.
    replace ((r <? 0)%Z || (Z.of_nat (length Permission_names) <=? r)%Z) with false.
    - destruct (lookup_lt_is_Some_2 Permission_names (Z.to_nat r)) as [name ->];
        [simpl; lia | by eexists].
    - symmetry. apply orb_false_iff. split; [apply Z.ltb_ge | apply Z.leb_gt];
        simpl; lia. }
  split; [|split].
  - split; [|exact Hin]. intros [name Hname]. by apply Hret in Hname as [? _].
  - split.
    + intros [reason Hpanic] Hr. destruct (Hin Hr) as [name Hname]. congruence.
    + intros Hout. destruct (Permission_String r) as [name|reason] eqn:Hr;
        [|by eexists].
      by apply Hret in Hr as [? _].
  - intros r' name Hr Hr'.
    apply Hret in Hr as [Hrange Hl]. apply Hret in Hr' as [Hrange' Hl'].
    pose proof (NoDup_lookup _ _ _ _ Permission_names_NoDup Hl Hl'). lia.
Qed.

End models_enums_facts.

(** ** The database-access evaluator *)
Section database_access_facts.
Import ast database_access.

Lemma path_strings_forallb (path : list any) : ∀ acc,
  is_Some (path_strings path acc)
  ↔ forallb (λ v, match v with AString _ => true | _ => false end) path = true.
Proof.
  induction path as [|v rest IH]; intros acc; simpl.
  - split; [done | by eexists].
  - destruct v; simpl; try (split; [intros [? [=]] | discriminate]).
    apply IH.
Qed.

(** The strings come out in the order of the path. *)
Lemma path_strings_of_strings (strs : list string) : ∀ acc,
  path_strings (AString <$> strs) acc = Some (acc ++ strs).
Proof.
  induction strs as [|str rest IH]; intros acc; simpl.
  - by rewrite app_nil_r.
  - by rewrite IH, <- app_assoc.
Qed.

(** X23: [Evaluate] never returns a value beside an error: every failure
    returns nil, also the failures of [getDbField], which itself returns a
    zero [Decision] with them. *)
Theorem DatabaseAccess_Evaluate_error_without_value `{Collaborators}
  (d : DatabaseAccess) (arguments : Arguments) (v : value) (err : error) :
  Evaluate d arguments = (v, Some err) → v = Dynamic ANil.
Proof.
  unfold Evaluate.
  destruct (NamedArgs arguments !! "tableName") as [[]|]; try by intros [= <- _].
  destruct (NamedArgs arguments !! "fieldName") as [[]|]; try by intros [= <- _].
  destruct (NamedArgs arguments !! "path") as [[]|]; try by intros [= <- _].
  destruct (path_strings l []) as [strs|]; [|by intros [= <- _]].
  destruct (getDbField d s s0 strs) as [fieldValue [e|]]; [by intros [= <- _]|].
  discriminate.
Qed.

Lemma DatabaseAccess_Evaluate_error_without_value_witness :
  Dynamic ANil = Dynamic ANil.
Proof.
  apply (@DatabaseAccess_Evaluate_error_without_value example_Collaborators
           (example_access "other") (example_arguments (ASlice [AString "account"]))
           (Dynamic ANil)
           (Errorf_w "getDbField not working "
              (Errorf_w "data model not found: " (Sentinel NotFoundError)))).
  vm_compute. reflexivity.
Defined.

(** X24: arguments of the wrong dynamic type are rejected with an error that
    wraps [ErrRuntimeExpression], the same error whatever the collaborators:
    no repository is consulted.  A path typed [[]string] is among them: the
    path must be a [[]any] of strings. *)
Theorem DatabaseAccess_Evaluate_ill_typed (arguments : Arguments) :
  well_typed arguments = false →
  ∃ err,
    errors_Is err ErrRuntimeExpression = true
    ∧ ∀ (C : Collaborators) (d : DatabaseAccess),
        Evaluate d arguments = (Dynamic ANil, Some err).
Proof.
  unfold well_typed, Evaluate. intros Hill.
  destruct (NamedArgs arguments !! "tableName") as [[]|];
    try (eexists; split; [|intros C d; reflexivity]; reflexivity).
  destruct (NamedArgs arguments !! "fieldName") as [[]|];
    try (eexists; split; [|intros C d; reflexivity]; reflexivity).
  destruct (NamedArgs arguments !! "path") as [[]|];
    try (eexists; split; [|intros C d; reflexivity]; reflexivity).
  destruct (path_strings l []) as [strs|] eqn:Hpath.
  - assert (Hsome : is_Some (path_strings l [])) by (by eexists).
    apply path_strings_forallb in Hsome. congruence.
  - eexists; split; [|intros C d; reflexivity]; reflexivity.
Qed.

Lemma DatabaseAccess_Evaluate_ill_typed_witness :
  ∃ err,
    errors_Is err ErrRuntimeExpression = true
    ∧ ∀ (C : Collaborators) (d : DatabaseAccess),
        Evaluate d (example_arguments (AStrings ["account"])) = (Dynamic ANil, Some err).
Proof.
  apply (DatabaseAccess_Evaluate_ill_typed (example_arguments (AStrings ["account"]))).
  vm_compute. reflexivity.
Defined.

(** X25: with well-typed arguments, a data model the repository does not
    find surfaces as [NotFoundError]: the repository's own error is replaced
    and no longer recognizable; any other error of the repository is kept
    under the two wraps; in both cases nothing is read. *)
Theorem DatabaseAccess_Evaluate_data_model_error `{Collaborators}
  (d : DatabaseAccess) (arguments : Arguments) (dm : DataModel) (err : error) :
  well_typed arguments = true →
  GetDataModel (OrganizationId d) = (dm, Some err) →
  Evaluate d arguments
  = (Dynamic ANil,
     Some (Errorf_w "getDbField not working "
             (if errors_Is err NotFoundInRepositoryError
              then Errorf_w "data model not found: " (Sentinel NotFoundError)
              else Errorf_w "error getting data model: " err)))
  ∧ (errors_Is err NotFoundInRepositoryError = true →
     ∃ reported, (Evaluate d arguments).2 = Some reported
       ∧ errors_Is reported NotFoundError = true
       ∧ errors_Is reported NotFoundInRepositoryError = false)
  ∧ (errors_Is err NotFoundInRepositoryError = false →
     ∃ reported, (Evaluate d arguments).2 = Some reported
       ∧ ∀ target, errors_Is reported target = errors_Is err target).
Proof.
  unfold well_typed. intros Hwell Hdm.
  assert (Heval : Evaluate d arguments
    = (Dynamic ANil,
       Some (Errorf_w "getDbField not working "
               (if errors_Is err NotFoundInRepositoryError
                then Errorf_w "data model not found: " (Sentinel NotFoundError)
                else Errorf_w "error getting data model: " err)))).
  { unfold Evaluate.
    destruct (NamedArgs arguments !! "tableName") as [[]|]; try discriminate.
    destruct (NamedArgs arguments !! "fieldName") as [[]|]; try discriminate.
    destruct (NamedArgs arguments !! "path") as [[]|]; try discriminate.
    destruct (proj2 (path_strings_forallb l []) Hwell) as [strs ->].
    unfold getDbField. rewrite Hdm.
    by destruct (errors_Is err NotFoundInRepositoryError). }
  rewrite Heval. split; [reflexivity|]. split; intros His; rewrite His.
  - eexists. by repeat split.
  - eexists. by split.
Qed.

Lemma DatabaseAccess_Evaluate_data_model_error_witness :
  @Evaluate example_Collaborators (example_access "other")
    (example_arguments (ASlice [AString "account"]))
  = (Dynamic ANil,
     Some (Errorf_w "getDbField not working "
             (Errorf_w "data model not found: " (Sentinel NotFoundError)))).
Proof.
  destruct (@DatabaseAccess_Evaluate_data_model_error example_Collaborators
              (example_access "other")
              (example_arguments (ASlice [AString "account"])) tt
              (Errorf_w "no data model: " (Sentinel NotFoundInRepositoryError)))
    as [Heval _].
  - vm_compute. reflexivity.
  - reflexivity.
  - exact Heval.
Defined.

(** X26: with well-typed arguments and a data model, [Evaluate] is the read
    of the ingested data, run in the transaction of the organization: the
    reader gets the table, the field, the strings of the path in their
    order, the data model and the payload; its value is returned as it is
    and its error is wrapped once. *)
Theorem DatabaseAccess_Evaluate_reads `{Collaborators}
  (d : DatabaseAccess) (named : gmap string any)
  (tableName fieldName : string) (path : list string) (dm : DataModel) :
  named !! "tableName" = Some (AString tableName) →
  named !! "fieldName" = Some (AString fieldName) →
  named !! "path" = Some (ASlice (AString <$> path)) →
  GetDataModel (OrganizationId d) = (dm, None) →
  Evaluate d {| Args := []; NamedArgs := named |}
  = match TransactionInOrgSchemaReturnValue (OrganizationId d)
            (λ tx, GetDbField tx
                     {| TriggerTableName := tableName;
                        Path := path;
                        FieldName := fieldName;
                        DataModel_ := dm;
                        Payload_ := Payload_of d |}) with
    | (_, Some err) => (Dynamic ANil, Some (Errorf_w "getDbField not working " err))
    | (fieldValue, None) => (fieldValue, None)
    end.
Proof.
  intros Ht Hf Hp Hdm. unfold Evaluate. cbn [NamedArgs].
  rewrite Ht, Hf, Hp, (path_strings_of_strings path []).
  unfold getDbField. by rewrite Hdm.
Qed.

Lemma DatabaseAccess_Evaluate_reads_witness :
  @Evaluate example_Collaborators (example_access "org")
    (example_arguments (ASlice (AString <$> ["account"; "owner"])))
  = (Dynamic (AStrings ["account"; "owner"]), None).
Proof.
  apply (@DatabaseAccess_Evaluate_reads example_Collaborators
           (example_access "org")
           (NamedArgs (example_arguments (ASlice (AString <$> ["account"; "owner"]))))
           "transactions" "status" ["account"; "owner"] tt).
  - vm_compute. reflexivity.
  - vm_compute. reflexivity.
  - vm_compute. reflexivity.
  - reflexivity.
Defined.

End database_access_facts.

(** ** Reading a typed field of the payload *)
Section payload_access_facts.
Import payload_access.

Lemma assert_pointer_pointer (t : T) (raw : dynamic) (p : option (denote t)) :
  assert_pointer t raw = Some p ↔ raw = pointer t p.
Proof.
  destruct t, raw; simpl; split; intros Heq; try discriminate Heq;
    by injection Heq as ->.
Qed.

(** X27: the outcomes of reading a typed field of the payload.  It succeeds
    exactly when the accessor gives, without error, a non-nil pointer to the
    type asked for, and the value is the one pointed to; with every error
    the value is the zero value; an error of the accessor is passed on as it
    is; of the two errors of its own, only the one for a nil pointer is
    recognized as [OperatorNullValueReadError], and neither depends on the
    field name, which is not in the message. *)
Theorem getPayloadFieldGeneric_outcomes (t : T) (d : DataAccessor) (fieldName : string) :
  (∀ v, getPayloadFieldGeneric t d fieldName = (v, None)
        ↔ d fieldName = (pointer t (Some v), None))
  ∧ (∀ v err, getPayloadFieldGeneric t d fieldName = (v, Some err) → v = zero t)
  ∧ (∀ raw err, d fieldName = (raw, Some err) →
       (getPayloadFieldGeneric t d fieldName).2 = Some err)
  ∧ (∀ raw, d fieldName = (raw, None) →
       (∀ v, raw ≠ pointer t (Some v)) →
       ∃ err, (getPayloadFieldGeneric t d fieldName).2 = Some err
         ∧ (errors_Is err OperatorNullValueReadError = true ↔ raw = pointer t None)
         ∧ ∀ (d' : DataAccessor) (fieldName' : string),
             d' fieldName' = (raw, None) →
             (getPayloadFieldGeneric t d' fieldName').2 = Some err).
Proof.
  unfold getPayloadFieldGeneric.
  destruct (d fieldName) as [raw [e|]] eqn:Hd.
  - split; [|split; [|split]].
    + intros v. split; discriminate.
    + by intros v err [= <- _].
    + by intros raw' err [= _ <-].
    + discriminate.
  - split; [|split; [|split]].
    + intros v. split.
      * destruct (assert_pointer t raw) as [[w|]|] eqn:Ha; try discriminate.
        intros [= <-]. by apply assert_pointer_pointer in Ha as ->.
      * intros [= ->]. by rewrite (proj2 (assert_pointer_pointer t _ _) eq_refl).
    + intros v err.
      destruct (assert_pointer t raw) as [[w|]|]; [discriminate | |]; by intros [= <- _].
    + discriminate.
    + intros raw' [= <-] Hnot.
      destruct (assert_pointer t raw) as [[w|]|] eqn:Ha.
      * apply assert_pointer_pointer in Ha. by destruct (Hnot w).
      * eexists. split; [reflexivity|]. split.
        -- split; [intros _; by apply assert_pointer_pointer | done].
        -- intros d' fieldName' ->. by rewrite Ha.
      * eexists. split; [reflexivity|]. split.
        -- split; [discriminate|].
           intros Hraw. apply assert_pointer_pointer in Hraw. congruence.
        -- intros d' fieldName' ->. by rewrite Ha.
Qed.

End payload_access_facts.

(** ** Publishing and unpublishing an iteration *)
Section scenarios_facts.
Import scenarios.


(** X28: a request that is refused (unpublishing an iteration that is not
    the live one, publishing a draft, an unknown action) returns nil with an
    error recognized as the sentinel of the refusal, and leaves the world as
    it was: no publication is created, nothing is validated or tracked. *)
Theorem PublishOrUnpublishIteration_refused `{Collaborators}
  (scenarioAndIteration : ScenarioAndIteration) (publicationAction : PublicationAction)
  (w : World) (s : sentinel) :
  refused scenarioAndIteration publicationAction = Some s →
  ∃ err,
    PublishOrUnpublishIteration scenarioAndIteration publicationAction w
    = ((None, Some err), w)
    ∧ ∀ target, errors_Is err target = sentinel_eqb s target.
Proof.
  unfold refused, is_live, PublishOrUnpublishIteration.
  destruct publicationAction as [| |name].
  - destruct (Version (Iteration scenarioAndIteration)); [discriminate|].
    intros [= <-]. by eexists.
  - destruct (LiveVersionID (Scenario_ scenarioAndIteration)) as [live|].
    + destruct (String.eqb live _); [discriminate|].
      intros [= <-]. by eexists.
    + intros [= <-]. by eexists.
  - intros [= <-]. by eexists.
Qed.

Lemma PublishOrUnpublishIteration_refused_witness :
  ∃ err,
    @PublishOrUnpublishIteration example_Collaborators
      (example_scenario (Some "iteration-1") (Some 3%Z)) Unpublish ([], [])
    = ((None, Some err), ([], []))
    ∧ ∀ target, errors_Is err target = sentinel_eqb BadParameterError target.
Proof.
  apply (@PublishOrUnpublishIteration_refused example_Collaborators
           (example_scenario (Some "iteration-1") (Some 3%Z)) Unpublish ([], [])
           BadParameterError).
  vm_compute. reflexivity.
Defined.

(** X29: publishing the iteration that is already live does nothing: it
    returns an empty list, not nil, without error, and the world is as it
    was: the iteration is not validated again, no publication is created and
    no event is tracked. *)
Theorem Publish_live_iteration_does_nothing `{Collaborators}
  (scenarioAndIteration : ScenarioAndIteration) (w : World) :
  is_live scenarioAndIteration = true →
  is_Some (Version (Iteration scenarioAndIteration)) →
  PublishOrUnpublishIteration scenarioAndIteration Publish w = ((Some [], None), w).
Proof.
  unfold is_live, PublishOrUnpublishIteration. intros Hlive [version ->].
  destruct (LiveVersionID (Scenario_ scenarioAndIteration)) as [live|];
    [|discriminate].
  by rewrite Hlive.
Qed.

Lemma Publish_live_iteration_does_nothing_witness :
  @PublishOrUnpublishIteration example_Collaborators
    (example_scenario (Some "iteration-2") (Some 3%Z)) Publish ([], [])
  = ((Some [], None), ([], [])).
Proof.
  apply (@Publish_live_iteration_does_nothing example_Collaborators
           (example_scenario (Some "iteration-2") (Some 3%Z)) ([], [])).
  - vm_compute. reflexivity.
  - eexists. reflexivity.
Defined.



End scenarios_facts.
